(** * design-patterns-study: the order-processing examples, embedded and verified

    A shallow embedding of the TypeScript examples (Order models, Facade,
    Proxy, Observer, Template Method, Singleton) with the properties their
    specification states about them. *)

From Stdlib Require Import QArith Ascii.
From stdpp Require Import gmap strings list fin_maps pretty.

Local Open Scope string_scope.
Local Open Scope list_scope.
Local Open Scope stdpp_scope.

(** ** JavaScript values used by the examples *)

(** A JS [number] is NaN, an infinity or a finite value. The finite doubles
    are rationals; the examples only compare amounts with the literal [0] and
    print them, so the finite case carries a rational. *)
Inductive number : Type :=
  | NaN
  | NegInf
  | PosInf
  | Fin (q : Q).

Definition zero : number := Fin 0.

(** The relational operators [a < b] and [a <= b]: false as soon as one side
    is NaN. *)
Definition js_lt (a b : number) : bool :=
  match a, b with
  | NaN, _ | _, NaN => false
  | _, NegInf => false
  | NegInf, _ => true
  | PosInf, _ => false
  | Fin _, PosInf => true
  | Fin p, Fin q => negb (Qle_bool q p)
  end.

Definition js_le (a b : number) : bool :=
  match a, b with
  | NaN, _ | _, NaN => false
  | _, _ => negb (js_lt b a)
  end.

Definition is_zero (a : number) : bool :=
  match a with
  | Fin q => Qeq_bool q 0
  | _ => false
  end.

(** ToBoolean on a number: [0], [-0] and NaN are falsy. *)
Definition truthy_number (a : number) : bool :=
  match a with
  | NaN => false
  | Fin q => negb (Qeq_bool q 0)
  | _ => true
  end.

(** ToBoolean on a string argument that may be absent at run time
    ([None] stands for [undefined]/[null]): only a non-empty string is truthy. *)
Definition truthy_string (s : option string) : bool :=
  match s with
  | Some (String _ _) => true
  | _ => false
  end.

(** [new Error(message)] *)
Record Error : Type := mkError { message : string }.

(** A call either returns a value or throws. *)
Inductive Outcome (A : Type) : Type :=
  | Return (a : A)
  | Throw (e : Error).
Arguments Return {A} a.
Arguments Throw {A} e.

(** A parameter with a default value: [x = d]. *)
Definition default_arg {A : Type} (d : A) (x : option A) : A :=
  match x with Some v => v | None => d end.

(** What the specification calls a negative, a non-negative, a positive and
    a non-positive amount. NaN is none of them. *)
Definition negative (a : number) : Prop :=
  match a with
  | NegInf => True
  | Fin q => (q < 0)%Q
  | _ => False
  end.

Definition nonneg (a : number) : Prop :=
  match a with
  | PosInf => True
  | Fin q => (0 <= q)%Q
  | _ => False
  end.

Definition positive_amount (a : number) : Prop :=
  match a with
  | PosInf => True
  | Fin q => (0 < q)%Q
  | _ => False
  end.

Definition nonpositive (a : number) : Prop :=
  match a with
  | NegInf => True
  | Fin q => (q <= 0)%Q
  | _ => False
  end.

(** An identifier that is empty or absent. *)
Definition missing (id : option string) : Prop :=
  id = None \/ id = Some "".

(** ** Effects

    A method runs on a state, returns or throws, and leaves a state behind:
    an exception keeps the changes made before it was raised. *)
Definition Eff (St A : Type) : Type := St -> Outcome A * St.

Global Instance Eff_ret {St : Type} : MRet (Eff St) :=
  fun A a st => (Return a, st).

Global Instance Eff_bind {St : Type} : MBind (Eff St) :=
  fun A B k m st =>
    match m st with
    | (Return a, st') => k a st'
    | (Throw e, st') => (Throw e, st')
    end.

Definition throw {St A : Type} (e : Error) : Eff St A :=
  fun st => (Throw e, st).

Definition gets {St A : Type} (f : St -> A) : Eff St A :=
  fun st => (Return (f st), st).

Definition modify {St : Type} (f : St -> St) : Eff St unit :=
  fun st => (Return tt, f st).

(** [console.log]: the console is the list of the lines printed so far. *)
Class Console (W : Type) : Type := console_log : string -> W -> W.

Definition log {W : Type} {con : Console W} (line : string) : Eff W unit :=
  modify (console_log line).

Global Instance list_console : Console (list string) :=
  fun line lines => lines ++ [line].

(** The conversion of a number to a string in a template literal
    ([`${amount}`]). No statement below depends on the digits it yields. *)
Class NumberToString : Type := numberToString : number -> string.

(** The conversion used to run the examples: as ECMAScript prints NaN, the
    infinities and the integers below [10^21]; a fraction otherwise. *)
Definition decimal : NumberToString :=
  fun a =>
    match a with
    | NaN => "NaN"
    | PosInf => "Infinity"
    | NegInf => "-Infinity"
    | Fin q =>
        let n := Qnum q in
        let d := Z.pos (Qden q) in
        if (n mod d =? 0)%Z then pretty (n / d)%Z
        else pretty n +:+ "/" +:+ pretty d
    end.

(** The record [{ transactionId: string; status: string }] the payment
    examples return. *)
Module PaymentResult.
Record t : Type := mk { transactionId : string; status : string }.
End PaymentResult.

(** A string without the character ["_"]: what the conversion of a number
    yields. *)
Fixpoint underscore_free (s : string) : bool :=
  match s with
  | EmptyString => true
  | String c rest => negb (Ascii.eqb c "_"%char) && underscore_free rest
  end.

(** ** The Order models *)

(** [src/models/order.ts] of the facade, template-method and singleton
    examples. *)
Module OrderModel.

Record Order : Type := mkOrder {
  id : string;
  amount : number;
  status : string
}.

Definition new (id : option string) (amount : number)
    (status : option string) : Outcome Order :=
  if js_lt amount zero then Throw (mkError "Valor inválido")
  else if negb (truthy_string id) then Throw (mkError "ID obrigatório")
  else Return (mkOrder (default_arg "" id) amount
                       (default_arg "pending" status)).

Definition complete (o : Order) : Order :=
  mkOrder (id o) (amount o) "completed".

End OrderModel.

(** ** Facade: [11-facade-pattern/src/services] *)
Module FacadePattern.
Import OrderModel.

Section Services.
Context {toStr : NumberToString} {W : Type} {con : Console W}.

(** A subsystem: an object with [process(orderId, amount)]. *)
Definition OrderSystem : Type := string -> number -> Eff W string.

Definition PaymentService : OrderSystem := fun orderId amount =>
  log ("Processing payment for order ID: " +:+ orderId
       +:+ " with value: " +:+ numberToString amount);;
  mret "payment-processed".

Definition InventoryService : OrderSystem := fun orderId amount =>
  log ("Processing inventory for order ID: " +:+ orderId
       +:+ " with value: " +:+ numberToString amount);;
  mret "inventory-updated".

Definition ShippingService : OrderSystem := fun orderId amount =>
  log ("Processing shipping for order ID: " +:+ orderId
       +:+ " with value: " +:+ numberToString amount);;
  mret "shipping-processed".

Record OrderFacade : Type := mkOrderFacade {
  shippingService : OrderSystem;
  paymentService : OrderSystem;
  inventoryService : OrderSystem
}.

(** The constructor takes the services in this order. *)
Definition newOrderFacade (shippingService paymentService
    inventoryService : OrderSystem) : OrderFacade :=
  mkOrderFacade shippingService paymentService inventoryService.

(** The field of the facade a call goes through, and the record of a
    call: the trace of the calls is kept next to the world, as a spy
    on the three fields would. *)
Inductive Field : Type := payment | inventory | shipping.

Record Call : Type := mkCall {
  callee : Field;
  orderId : string;
  value : number
}.

(** The order passed to [processOrder] is an object the caller still
    holds: it lives in the state. *)
Record Env : Type := mkEnv {
  order : Order;
  world : W;
  calls : list Call
}.

Definition service (f : OrderFacade) (who : Field) : OrderSystem :=
  match who with
  | payment => paymentService f
  | inventory => inventoryService f
  | shipping => shippingService f
  end.

(** [this.<who>Service.process(order.id, order.amount)] *)
Definition process (f : OrderFacade) (who : Field) : Eff Env string :=
  fun env =>
    let o := order env in
    let '(r, w) := service f who (id o) (amount o) (world env) in
    (r, mkEnv o w (calls env ++ [mkCall who (id o) (amount o)])).

Definition processOrder (f : OrderFacade) : Eff Env PaymentResult.t :=
  transactionId ← process f payment;
  process f inventory;;
  process f shipping;;
  modify (fun env =>
            mkEnv (complete (order env)) (world env) (calls env));;
  mret (PaymentResult.mk transactionId "completed").

End Services.

(** The facade [index.ts] builds, printing numbers with [decimal]. *)
Definition main_facade : OrderFacade (W := list string) :=
  newOrderFacade (ShippingService (toStr := decimal))
                 (PaymentService (toStr := decimal))
                 (InventoryService (toStr := decimal)).

(** A subsystem that is out of order, for the examples of a failure. *)
Definition failingService (reason : string) : OrderSystem (W := list string) :=
  fun orderId amount =>
    log ("Failing for order ID: " +:+ orderId);;
    throw (mkError reason).

(** The facade the test builds: it passes the services in another order
    than the constructor names them. *)
Definition test_facade : OrderFacade (W := list string) :=
  newOrderFacade (PaymentService (toStr := decimal))
                 (InventoryService (toStr := decimal))
                 (ShippingService (toStr := decimal)).

End FacadePattern.

(** ** Proxy: [6-proxy-pattern/src] *)
Module ProxyPattern.

(** [models/order.ts] *)

Record Order : Type := mkOrder {
  id : string;
  amount : number;
  status : string
}.

Definition new (id : option string) (amount : number)
    (status : option string) : Outcome Order :=
  if js_le amount zero
  then Throw (mkError "Amount must be greater than zero")
  else if negb (truthy_string id)
  then Throw (mkError "Order ID is required")
  else Return (mkOrder (default_arg "" id) amount
                       (default_arg "pending" status)).

Definition complete (o : Order) : Order :=
  mkOrder (id o) (amount o) "completed".

(** [services/payment-proxy.ts] *)
Section Proxy.
Context {toStr : NumberToString} {W : Type} {con : Console W}.

(** [IPaymentGateway]: an object with [processPayment(amount, orderId)]. *)
Definition IPaymentGateway : Type :=
  number -> string -> Eff W PaymentResult.t.

(** [real-payment-processor.ts] *)
Definition RealOrderProcessorPayment : IPaymentGateway :=
  fun amount orderId =>
    log ("Processing payment of " +:+ numberToString amount
         +:+ " for order " +:+ orderId);;
    mret (PaymentResult.mk ("txn_" +:+ orderId) "success").

Record PaymentProxy : Type := mkPaymentProxy {
  cache : gmap string PaymentResult.t;
  realProcessor : IPaymentGateway;
  userRole : string
}.

Definition newPaymentProxy (realProcessor : IPaymentGateway)
    (userRole : string) : PaymentProxy :=
  mkPaymentProxy ∅ realProcessor userRole.

(** The proxy, the world its gateway acts on, and the calls the gateway
    has received, oldest first. *)
Record Env : Type := mkEnv {
  this : PaymentProxy;
  world : W;
  calls : list (number * string)
}.

Definition on_world {A : Type} (m : Eff W A) : Eff Env A :=
  fun env =>
    let '(r, w) := m (world env) in
    (r, mkEnv (this env) w (calls env)).

(** [this.realProcessor.processPayment(amount, orderId)] *)
Definition delegate (amount : number) (orderId : string)
    : Eff Env PaymentResult.t :=
  fun env =>
    let '(r, w) := realProcessor (this env) amount orderId (world env) in
    (r, mkEnv (this env) w (calls env ++ [(amount, orderId)])).

(** [this.cache.set(cacheKey, result)] *)
Definition cache_set (cacheKey : string) (result : PaymentResult.t)
    : Eff Env unit :=
  modify (fun env =>
    mkEnv (mkPaymentProxy (<[cacheKey := result]> (cache (this env)))
                          (realProcessor (this env)) (userRole (this env)))
          (world env) (calls env)).

Definition accessDenied : Error :=
  mkError
    "Acesso negado: apenas administradores podem processar pagamentos".

Definition processPayment (amount : number) (orderId : string)
    : Eff Env PaymentResult.t :=
  role ← gets (fun env => userRole (this env));
  if decide (role ≠ "admin") then throw accessDenied
  else
    let cacheKey := orderId +:+ "_" +:+ numberToString amount in
    cached ← gets (fun env => cache (this env) !! cacheKey);
    match cached with
    | Some result =>
        on_world (log ("Retornando resultado do cache para pedido "
                       +:+ orderId));;
        mret result
    | None =>
        result ← delegate amount orderId;
        cache_set cacheKey result;;
        mret result
    end.

(** A caller that issues the calls one after the other and catches what
    each throws: the outcomes, in order, and the final state. *)
Fixpoint processPayments (args : list (number * string)) (env : Env)
    : list (Outcome PaymentResult.t) * Env :=
  match args with
  | [] => ([], env)
  | (amount, orderId) :: rest =>
      let '(r, env1) := processPayment amount orderId env in
      let '(rs, env2) := processPayments rest env1 in
      (r :: rs, env2)
  end.

End Proxy.

(** A gateway for the examples below that is down until something was
    written on the console: any object with [processPayment] may stand
    behind the proxy. *)
Definition flakyGateway : IPaymentGateway (W := list string) :=
  fun amount orderId =>
    lines ← gets (fun w => w);
    match lines with
    | [] => log "gateway down";; throw (mkError "gateway down")
    | _ => mret (PaymentResult.mk ("txn_" +:+ orderId) "success")
    end.

(** The proxies [index.ts] builds around the real processor, printing
    numbers with [decimal]. *)
Definition main_proxy (userRole : string) : PaymentProxy (W := list string) :=
  newPaymentProxy (RealOrderProcessorPayment (toStr := decimal)) userRole.

End ProxyPattern.

(** ** Observer: [10-observer-pattern/src] *)
Module ObserverPattern.

(** [models/order.ts]: the status is a private field behind a getter and a
    setter. *)

Record Order : Type := mkOrder {
  id : string;
  amount : number;
  _status : string
}.

Definition new (id : option string) (amount : number)
    (status : option string) : Outcome Order :=
  if js_lt amount zero then Throw (mkError "Valor inválido")
  else if negb (truthy_string id) then Throw (mkError "ID obrigatório")
  else Return (mkOrder (default_arg "" id) amount
                       (default_arg "pending" status)).

Definition status (o : Order) : string := _status o.

Definition set_status (value : string) (o : Order) : Order :=
  mkOrder (id o) (amount o) value.

(** [Array.prototype.indexOf]: the first index holding [x], [-1] when
    there is none. Objects are compared by identity. *)
Fixpoint indexOf_from {A : Type} `{EqDecision A} (i : Z) (l : list A)
    (x : A) : Z :=
  match l with
  | [] => (-1)%Z
  | y :: rest => if decide (y = x) then i else indexOf_from (i + 1)%Z rest x
  end.

Definition indexOf {A : Type} `{EqDecision A} (l : list A) (x : A) : Z :=
  indexOf_from 0%Z l x.

(** [l.splice(index, 1)] for a non-negative [index]. *)
Definition splice1 {A : Type} (index : Z) (l : list A) : list A :=
  delete (Z.to_nat index) l.

(** [services/order-subject.ts] *)
Section Subject.
(** The observer objects, compared by identity, the world their [update]
    methods act on, and the method itself. An [update] receives the
    status only: it does not reach the subject. *)
Context {Observer : Type} `{EqDecision Observer} {W : Type}.
Variable update : Observer -> string -> Eff W unit.

Record OrderSubject : Type := mkOrderSubject {
  observers : list Observer;
  order : Order
}.

Definition newOrderSubject (order : Order) : OrderSubject :=
  mkOrderSubject [] order.

(** The subject, the world, and the [update] calls made so far (which
    observer, with which status), oldest first. *)
Record Env : Type := mkEnv {
  this : OrderSubject;
  world : W;
  updates : list (Observer * string)
}.

Definition addObserver (observer : Observer) : Eff Env unit :=
  modify (fun env =>
    mkEnv (mkOrderSubject (observers (this env) ++ [observer])
                          (order (this env)))
          (world env) (updates env)).

Definition removeObserver (observer : Observer) : Eff Env unit :=
  modify (fun env =>
    let index := indexOf (observers (this env)) observer in
    if decide (index ≠ (-1)%Z)
    then mkEnv (mkOrderSubject (splice1 index (observers (this env)))
                               (order (this env)))
               (world env) (updates env)
    else env).

(** [observer.update(this.order.status)] *)
Definition call_update (observer : Observer) : Eff Env unit :=
  fun env =>
    let s := status (order (this env)) in
    let '(r, w) := update observer s (world env) in
    (r, mkEnv (this env) w (updates env ++ [(observer, s)])).

Fixpoint notify_each (l : list Observer) : Eff Env unit :=
  match l with
  | [] => mret tt
  | observer :: rest => call_update observer;; notify_each rest
  end.

Definition notify : Eff Env unit :=
  l ← gets (fun env => observers (this env));
  notify_each l.

Definition setStatus (status : string) : Eff Env unit :=
  modify (fun env =>
    mkEnv (mkOrderSubject (observers (this env))
                          (set_status status (order (this env))))
          (world env) (updates env));;
  notify.

(** A caller that sets one status after the other and catches what each
    call throws. *)
Fixpoint setStatuses (l : list string) (env : Env) : Env :=
  match l with
  | [] => env
  | s :: rest => setStatuses rest (snd (setStatus s env))
  end.

Fixpoint addObservers (l : list Observer) (env : Env) : Env :=
  match l with
  | [] => env
  | o :: rest => addObservers rest (snd (addObserver o env))
  end.

End Subject.

(** How many times [x] is registered in a list of observers. *)
Definition registrations {A : Type} `{EqDecision A} (x : A) (l : list A)
    : nat :=
  length (filter (fun o => o = x) l).

(** The two notifiers of the example. An observer object is its class and
    the address that tells two instances apart. *)
Inductive Notifier : Type := EmailNotifier | SmsNotifier.

Definition notifier_update (o : Notifier * nat) (status : string)
    : Eff (list string) unit :=
  match fst o with
  | EmailNotifier =>
      log ("Email notification sent: Order status changed to " +:+ status)
  | SmsNotifier =>
      log ("Enviando SMS: Status do pedido atualizado para " +:+ status)
  end.

(** The line a notifier prints for a status. *)
Definition notification (o : Notifier * nat) (status : string) : string :=
  match fst o with
  | EmailNotifier =>
      "Email notification sent: Order status changed to " +:+ status
  | SmsNotifier =>
      "Enviando SMS: Status do pedido atualizado para " +:+ status
  end.

Global Instance Notifier_eq_dec : EqDecision Notifier.
Proof. solve_decision. Defined.

(** The objects of [index.ts]: the order, the subject, the two notifiers. *)
Definition emailNotifier : Notifier * nat := (EmailNotifier, 1).
Definition smsNotifier : Notifier * nat := (SmsNotifier, 2).

Definition main_env : Env (Observer := Notifier * nat) (W := list string) :=
  mkEnv (newOrderSubject (mkOrder "12345" (Fin 100) "pending")) [] [].

(** *** Observers that hold the subject

    An observer object may hold the subject it is registered with: its
    [update] can then add or remove observers and change the order while
    [notify] is running. [notify] walks the array it is changing: the
    for-of loop keeps an index, and reads the array and the status of the
    order again at every turn. Such a loop need not end (an observer may
    add an observer at every call), so the loop takes the number of turns
    it may make; [None] says it has not ended within them. *)
Module Reentrant.

Section Live.
Context {Observer : Type} `{EqDecision Observer} {W : Type}.
Variable update :
  Observer -> string -> Eff (OrderSubject (Observer := Observer) * W) unit.

(** [observer.update(this.order.status)] *)
Definition call_update (observer : Observer) : Eff Env unit :=
  fun env =>
    let s := status (order (this env)) in
    let '(r, (subject, w)) := update observer s (this env, world env) in
    (r, mkEnv subject w (updates env ++ [(observer, s)])).

Fixpoint notify_from (fuel : nat) (i : nat) (env : Env)
    : option (Outcome unit * Env) :=
  match fuel with
  | O => None
  | S fuel' =>
      match observers (this env) !! i with
      | None => Some (Return tt, env)
      | Some observer =>
          match call_update observer env with
          | (Return _, env') => notify_from fuel' (S i) env'
          | (Throw e, env') => Some (Throw e, env')
          end
      end
  end.

Definition notify (fuel : nat) (env : Env) : option (Outcome unit * Env) :=
  notify_from fuel 0 env.

Definition setStatus (fuel : nat) (status : string) (env : Env)
    : option (Outcome unit * Env) :=
  notify fuel
    (mkEnv (mkOrderSubject (observers (this env))
                           (set_status status (order (this env))))
           (world env) (updates env)).

(** A caller that sets one status after the other and catches what each
    call throws. *)
Fixpoint setStatuses (fuel : nat) (l : list string) (env : Env)
    : option Env :=
  match l with
  | [] => Some env
  | s :: rest =>
      match setStatus fuel s env with
      | Some (_, env') => setStatuses fuel rest env'
      | None => None
      end
  end.

End Live.

Section Detached.
Context {Observer : Type} {W : Type}.
Variable f : Observer -> string -> Eff W unit.

(** An observer that does not reach the subject: its [update] acts on the
    world only, and neither reads nor changes the subject. *)
Definition detached
    : Observer -> string -> Eff (OrderSubject (Observer := Observer) * W) unit :=
  fun o s st =>
    let '(r, w) := f o s (snd st) in
    (r, (fst st, w)).

(** What the specification says of the notification: the observers of a
    list are called in order with one status, each on the world the one
    before it left, up to the first that throws. The result is the outcome,
    the world left behind and the observers that were called. *)
Fixpoint deliver (s : string) (l : list Observer) (w : W)
    : Outcome unit * W * list Observer :=
  match l with
  | [] => (Return tt, w, [])
  | o :: rest =>
      match f o s w with
      | (Return _, w') =>
          let '(r, w'', called) := deliver s rest w' in
          (r, w'', o :: called)
      | (Throw e, w') => (Throw e, w', [o])
      end
  end.

End Detached.

(** A notifier that holds the subject and unsubscribes itself once it is
    notified: it prints its line, then calls [removeObserver] on itself. *)
Definition oneShot (o : Notifier * nat) (s : string)
    : Eff (OrderSubject (Observer := Notifier * nat) * list string) unit :=
  fun st =>
    let subject := fst st in
    let index := indexOf (observers subject) o in
    (Return tt,
     (if decide (index ≠ (-1)%Z)
      then mkOrderSubject (splice1 index (observers subject)) (order subject)
      else subject,
      snd st ++ [notification o s])).

(** A notifier whose channel is down: the SMS notifier throws, the e-mail
    notifier prints. *)
Definition smsDown (o : Notifier * nat) (s : string)
    : Eff (list string) unit :=
  match fst o with
  | EmailNotifier => log (notification o s)
  | SmsNotifier => throw (mkError "SMS gateway down")
  end.

End Reentrant.

End ObserverPattern.

(** ** Single responsibility: [5-single-responsability-principle/src/order.ts]

    The order with the [open]/[closed] status; its constructor validates
    nothing. *)
Module SingleResponsibility.

Inductive Status : Type := open | closed.

Record Order : Type := mkOrder {
  uuid : string;
  items : list string;
  total : number;
  status : Status
}.

(** [this.total = amount || 0] *)
Definition new (uuid : string) (amount : option number) : Order :=
  mkOrder uuid []
          (match amount with
           | Some a => if truthy_number a then a else zero
           | None => zero
           end)
          open.

Definition closeOrder (o : Order) : Order :=
  mkOrder (uuid o) (items o) (total o) closed.

Definition getStatus (o : Order) : Status := status o.

(** [this.total += price] and [this.total -= price] are the additions and
    subtractions of doubles: the model takes them as given. *)
Class Arith : Type := {
  add : number -> number -> number;
  sub : number -> number -> number
}.

Section Items.
Context {arith : Arith}.

Definition addItem (item : string) (price : number) (o : Order) : Order :=
  mkOrder (uuid o) (items o ++ [item]) (add (total o) price) (status o).

Definition removeItem (item : string) (price : number) (o : Order) : Order :=
  let index := ObserverPattern.indexOf (items o) item in
  if decide (index > -1)%Z
  then mkOrder (uuid o) (ObserverPattern.splice1 index (items o))
               (sub (total o) price) (status o)
  else o.

Definition getTotal (o : Order) : number := total o.

(** [return [...this.items]] *)
Definition getItems (o : Order) : list string := items o.

(** What a caller may do to an order once it holds it. *)
Inductive OrderOp : Type :=
  | opAddItem (item : string) (price : number)
  | opRemoveItem (item : string) (price : number)
  | opCloseOrder.

Definition apply_op (op : OrderOp) (o : Order) : Order :=
  match op with
  | opAddItem item price => addItem item price o
  | opRemoveItem item price => removeItem item price o
  | opCloseOrder => closeOrder o
  end.

Definition apply_ops (ops : list OrderOp) (o : Order) : Order :=
  foldl (fun o op => apply_op op o) o ops.

End Items.

(** [order-processor-service.ts]. The order is an object the service and
    its three collaborators all reach: it lives in the state, next to the
    console. *)
Section Processor.
Context {toStr : NumberToString}.

Record Env : Type := mkEnv {
  order : Order;
  console : list string
}.

Global Instance Env_console : Console Env :=
  fun line env => mkEnv (order env) (console env ++ [line]).

Record OrderProcessorService : Type := mkOrderProcessorService {
  inventoryChecker : Eff Env bool;
  paymentProcessor : Eff Env bool;
  orderCalculator : Eff Env number
}.

(** The three collaborators of the file. *)
Definition InventoryChecker : Eff Env bool := mret true.
Definition PaymentProcessor : Eff Env bool := mret true.
Definition OrderCalculator : Eff Env number :=
  gets (fun env => getTotal (order env)).

(** An array in a template literal: its elements joined by commas. *)
Definition arrayToString (l : list string) : string := String.concat "," l.

Definition processOrder (svc : OrderProcessorService) : Eff Env unit :=
  inventoryChecker svc;;
  total ← orderCalculator svc;
  l ← gets (fun env => getItems (order env));
  log ("Total amount for order " +:+ arrayToString l +:+ ": "
       +:+ numberToString total);;
  paymentSuccess ← paymentProcessor svc;
  if negb paymentSuccess then throw (mkError "Payment processing failed")
  else
    modify (fun env => mkEnv (closeOrder (order env)) (console env));;
    l ← gets (fun env => getItems (order env));
    log ("Order " +:+ arrayToString l +:+ " processed successfully.").

End Processor.

End SingleResponsibility.

(** ** Template method: [9-template-method-pattern /src/services] *)
Module TemplateMethodPattern.
Import OrderModel.

(** The record [{ amount: number; method: string }]. *)
Module PaymentDetails.
Record t : Type := mk { amount : number; method : string }.
End PaymentDetails.

Section Template.
Context {W : Type}.

(** The two abstract methods a concrete payment provides. *)
Class PaymentTemplate : Type := {
  preparePayment : number -> Eff W PaymentDetails.t;
  executePayment : PaymentDetails.t -> Eff W PaymentResult.t
}.

(** The steps of the template past the validation, as they are run. *)
Inductive Step : Type :=
  | prepared (amount : number)
  | executed (details : PaymentDetails.t)
  | completed.

Record Env : Type := mkEnv {
  order : Order;
  world : W;
  steps : list Step
}.

Definition step {A : Type} (what : Step) (m : Eff W A) : Eff Env A :=
  fun env =>
    let '(r, w) := m (world env) in
    (r, mkEnv (order env) w (steps env ++ [what])).

Context {template : PaymentTemplate}.

Definition validateOrder : Eff Env unit :=
  o ← gets order;
  if js_le (amount o) zero
  then throw (mkError "Valor inválido para pagamento")
  else mret tt.

Definition updateOrderStatus : Eff Env unit :=
  fun env =>
    (Return tt,
     mkEnv (complete (order env)) (world env) (steps env ++ [completed])).

Definition processPayment : Eff Env PaymentResult.t :=
  validateOrder;;
  o ← gets order;
  paymentDetails ← step (prepared (amount o)) (preparePayment (amount o));
  transaction ← step (executed paymentDetails)
                     (executePayment paymentDetails);
  updateOrderStatus;;
  mret transaction.

End Template.

(** [credit-payment.ts]. Its world is the clock [Date.now()] reads and the
    console. *)
Record Runtime : Type := mkRuntime { now : Z; console : list string }.

Global Instance Runtime_console : Console Runtime :=
  fun line rt => mkRuntime (now rt) (console rt ++ [line]).

Definition CreditPayment {toStr : NumberToString} : PaymentTemplate (W := Runtime) := {|
  preparePayment := fun amount => mret (PaymentDetails.mk amount "credit");
  executePayment := fun details =>
    t ← gets now;
    let transactionId := "txn-" +:+ pretty t in
    log ("Processing credit payment of "
         +:+ numberToString (PaymentDetails.amount details)
         +:+ " using " +:+ PaymentDetails.method details);;
    mret (PaymentResult.mk transactionId "success")
|}.

(** A payment whose execution is declined, for the examples of a
    failure: it prepares as the credit payment does and throws when
    executed. *)
Definition DecliningPayment : PaymentTemplate (W := Runtime) := {|
  preparePayment := fun amount => mret (PaymentDetails.mk amount "credit");
  executePayment := fun details =>
    log "Payment declined";;
    throw (mkError "Payment declined")
|}.

End TemplateMethodPattern.

(** ** Singleton: [7-singleton-pattern (danger)/src/services] *)
Module SingletonPattern.

(** The record [{ apiKey: string; timeout: number }]. *)
Module Config.
Record t : Type := mk { apiKey : string; timeout : number }.
End Config.

(** Configuration records are objects, held and passed by reference: the
    heap maps the address of each record to its fields. A manager object
    is the address its private [config] field holds; the field is never
    assigned after construction. *)
Definition loc : Type := positive.

Record ConfigManager : Type := mkConfigManager { config : loc }.

(** The heap and the static slot [ConfigManager.instance]. *)
Record World : Type := mkWorld {
  heap : gmap loc Config.t;
  instance : option ConfigManager
}.

Definition initial : World := mkWorld ∅ None.

(** An object literal, or a spread copy: a record at a fresh address. *)
Definition alloc (c : Config.t) : Eff World loc :=
  fun w =>
    let l := fresh (dom (heap w)) in
    (Return l, mkWorld (<[l := c]> (heap w)) (instance w)).

(** Reading the fields of the record at [l]. *)
Definition read (l : loc) : Eff World Config.t :=
  fun w =>
    match heap w !! l with
    | Some c => (Return c, w)
    | None => (Throw (mkError "TypeError"), w)
    end.

(** [l.apiKey = v] and [l.timeout = v] *)
Definition set_apiKey (l : loc) (v : string) : Eff World unit :=
  c ← read l;
  modify (fun w =>
    mkWorld (<[l := Config.mk v (Config.timeout c)]> (heap w)) (instance w)).

Definition set_timeout (l : loc) (v : number) : Eff World unit :=
  c ← read l;
  modify (fun w =>
    mkWorld (<[l := Config.mk (Config.apiKey c) v]> (heap w)) (instance w)).

(** [config-manager.ts]: the field initialiser, then the constructor body,
    each with an object literal. *)
Definition newConfigManager : Eff World ConfigManager :=
  alloc (Config.mk "" zero);;
  l ← alloc (Config.mk "default-key" (Fin 3000));
  mret (mkConfigManager l).

Definition getInstance : Eff World ConfigManager :=
  slot ← gets instance;
  match slot with
  | Some m => mret m
  | None =>
      m ← newConfigManager;
      modify (fun w => mkWorld (heap w) (Some m));;
      mret m
  end.

(** [return { ...this.config }] *)
Definition getConfig (m : ConfigManager) : Eff World loc :=
  c ← read (config m);
  alloc c.

Definition setConfig (m : ConfigManager) (apiKey : string)
    (timeout : number) : Eff World unit :=
  set_apiKey (config m) apiKey;;
  set_timeout (config m) timeout.

(** [config-manager-injected.ts]: [this.config = config || { ... }] keeps
    the object it is given. *)
Module Injected.

Record ConfigManagerInjected : Type :=
  mkConfigManagerInjected { config : loc }.

Definition new (given : option loc) : Eff World ConfigManagerInjected :=
  match given with
  | Some l => mret (mkConfigManagerInjected l)
  | None =>
      l ← alloc (Config.mk "default-key" zero);
      mret (mkConfigManagerInjected l)
  end.

Definition getConfig (m : ConfigManagerInjected) : Eff World loc :=
  c ← read (config m);
  alloc c.

Definition setConfig (m : ConfigManagerInjected) (apiKey : string)
    (timeout : number) : Eff World unit :=
  set_apiKey (config m) apiKey;;
  set_timeout (config m) timeout.

End Injected.

(** [interface ConfigService], which both managers satisfy. *)
Record ConfigService : Type := mkConfigService {
  svc_getConfig : Eff World loc;
  svc_setConfig : string -> number -> Eff World unit
}.

(** The singleton, reached through [ConfigManager.getInstance()] at every
    use, and an injected manager, held by reference. *)
Definition singleton_service : ConfigService :=
  mkConfigService (m ← getInstance; getConfig m)
                  (fun apiKey timeout =>
                     m ← getInstance; setConfig m apiKey timeout).

Definition injected_service (m : Injected.ConfigManagerInjected)
    : ConfigService :=
  mkConfigService (Injected.getConfig m) (Injected.setConfig m).

(** A client of a manager: it calls [getConfig] and keeps the records it
    is handed, calls [setConfig], and assigns to the fields of the records
    it holds. *)
Inductive ClientOp : Type :=
  | callGetConfig
  | callSetConfig (apiKey : string) (timeout : number)
  | writeApiKey (i : nat) (v : string)
  | writeTimeout (i : nat) (v : number).

Definition is_setConfig (op : ClientOp) : bool :=
  match op with callSetConfig _ _ => true | _ => false end.

Record Client : Type := mkClient { world : World; records : list loc }.

Definition run_op (svc : ConfigService) (op : ClientOp) (cl : Client)
    : Client :=
  match op with
  | callGetConfig =>
      match svc_getConfig svc (world cl) with
      | (Return l, w) => mkClient w (records cl ++ [l])
      | (Throw _, w) => mkClient w (records cl)
      end
  | callSetConfig k t =>
      mkClient (snd (svc_setConfig svc k t (world cl))) (records cl)
  | writeApiKey i v =>
      match records cl !! i with
      | Some l => mkClient (snd (set_apiKey l v (world cl))) (records cl)
      | None => cl
      end
  | writeTimeout i v =>
      match records cl !! i with
      | Some l => mkClient (snd (set_timeout l v (world cl))) (records cl)
      | None => cl
      end
  end.

Definition run (svc : ConfigService) (ops : list ClientOp) (cl : Client)
    : Client :=
  foldl (fun cl op => run_op svc op cl) cl ops.

(** A client state in which the manager's record, at [l0], holds [c] and
    is not among the records the client holds; [good] is what else the
    manager relies on. *)
Definition client_ok (good : World -> Prop) (l0 : loc) (c : Config.t)
    (cl : Client) : Prop :=
  good (world cl) /\ heap (world cl) !! l0 = Some c
  /\ Forall (fun l => l ≠ l0) (records cl).

(** What the singleton holds, once created. *)
Definition stored (w : World) : option Config.t :=
  m ← instance w; heap w !! config m.

Definition no_setConfig (ops : list ClientOp) : bool :=
  forallb (fun op => negb (is_setConfig op)) ops.

(** [useInjectedConfig] of [index.ts] up to the construction: the object
    literal, then the manager built on it. The client still holds the
    literal. *)
Definition injected_literal : loc := fresh (dom (heap initial)).

Definition injected_manager : Injected.ConfigManagerInjected :=
  Injected.mkConfigManagerInjected injected_literal.

Definition injected_client : Client :=
  mkClient (snd (alloc (Config.mk "injected-key" (Fin 10000)) initial))
           [injected_literal].

(** [useSingleTon] of [index.ts] after [getInstance]. *)
Definition singleton_client : Client :=
  mkClient (snd (getInstance initial)) [].

End SingletonPattern.

(** * Properties *)

(** ** Comparisons with zero *)

Example js_comparisons :
  js_lt NaN zero = false /\ js_le NaN zero = false
  /\ js_lt NegInf zero = true /\ js_le PosInf zero = false
  /\ js_lt (Fin (-1 # 2)) zero = true /\ js_lt zero zero = false
  /\ js_le zero zero = true /\ js_le (Fin (1 # 2)) zero = false
  /\ js_le NegInf NegInf = true /\ js_lt PosInf PosInf = false.
Proof. repeat split. Qed.

Lemma js_lt_zero_negative (a : number) : negative a -> js_lt a zero = true.
Proof.
  destruct a as [| | |q]; simpl; try done.
  intros Hq. destruct (Qle_bool 0 q) eqn:E; [|done].
  apply Qle_bool_iff in E. exfalso. apply (Qlt_not_le _ _ Hq E).
Qed.

Lemma js_lt_zero_nonneg (a : number) : nonneg a -> js_lt a zero = false.
Proof.
  destruct a as [| | |q]; simpl; try done.
  intros Hq. apply Qle_bool_iff in Hq. by rewrite Hq.
Qed.

Lemma js_le_zero_negative (a : number) : negative a -> js_le a zero = true.
Proof.
  destruct a as [| | |q]; simpl; try done.
  intros Hq. destruct (Qle_bool q 0) eqn:E; [done|].
  exfalso. apply Qlt_le_weak, Qle_bool_iff in Hq. congruence.
Qed.

Lemma js_le_zero_positive (a : number) :
  positive_amount a -> js_le a zero = false.
Proof.
  destruct a as [| | |q]; simpl; try done.
  intros Hq. destruct (Qle_bool q 0) eqn:E; [|done].
  apply Qle_bool_iff in E. exfalso. apply (Qlt_not_le _ _ Hq E).
Qed.

Lemma js_le_zero_nonneg (a : number) :
  nonneg a -> js_le a zero = is_zero a.
Proof.
  destruct a as [| | |q]; simpl; try done.
  intros Hq. destruct (Qle_bool q 0) eqn:E1, (Qeq_bool q 0) eqn:E2; try done.
  - apply Qle_bool_iff in E1. apply Qeq_bool_neq in E2.
    exfalso. apply E2. by apply Qle_antisym.
  - apply Qeq_bool_iff in E2. rewrite E2 in E1. done.
Qed.

Lemma js_le_zero_nonpositive (a : number) :
  nonpositive a -> js_le a zero = true.
Proof.
  destruct a as [| | |q]; simpl; try done.
  intros Hq. apply Qle_bool_iff in Hq. by rewrite Hq.
Qed.

Lemma positive_not_zero (a : number) :
  positive_amount a -> nonneg a /\ is_zero a = false.
Proof.
  destruct a as [| | |q]; simpl; try done.
  intros Hq. split; [by apply Qlt_le_weak|].
  destruct (Qeq_bool q 0) eqn:E; [|done].
  apply Qeq_bool_iff in E. rewrite E in Hq. by apply Qlt_irrefl in Hq.
Qed.

Lemma truthy_nonempty (id : string) : id ≠ "" -> truthy_string (Some id) = true.
Proof. by destruct id. Qed.

Lemma falsy_missing (id : option string) :
  missing id -> truthy_string id = false.
Proof. by intros [-> | ->]. Qed.

(** ** Order construction and completion *)

(** C2, as the code has it. With a non-empty identifier, a non-negative
    amount and no status argument, the constructors of the facade/template
    model and of the observer model return an order whose status is
    ["pending"], and the single-responsibility order is created ["open"];
    the constructor of the proxy example does the same for every amount but
    zero, which it rejects with "Amount must be greater than zero". *)
Theorem order_construction_default_status (id : string) (amount : number) :
  id ≠ "" -> nonneg amount ->
  OrderModel.new (Some id) amount None
    = Return (OrderModel.mkOrder id amount "pending")
  /\ ObserverPattern.new (Some id) amount None
    = Return (ObserverPattern.mkOrder id amount "pending")
  /\ ProxyPattern.new (Some id) amount None
    = (if is_zero amount
       then Throw (mkError "Amount must be greater than zero")
       else Return (ProxyPattern.mkOrder id amount "pending"))
  /\ SingleResponsibility.getStatus
       (SingleResponsibility.new id (Some amount))
    = SingleResponsibility.open.
Proof.
  intros Hid Hamount.
  unfold OrderModel.new, ObserverPattern.new, ProxyPattern.new.
  rewrite (js_lt_zero_nonneg _ Hamount), (js_le_zero_nonneg _ Hamount),
    (truthy_nonempty _ Hid).
  simpl. by destruct (is_zero amount).
Qed.

Lemma order_construction_default_status_witness :
  OrderModel.new (Some "order123") (Fin 100) None
    = Return (OrderModel.mkOrder "order123" (Fin 100) "pending")
  /\ ObserverPattern.new (Some "order123") (Fin 100) None
    = Return (ObserverPattern.mkOrder "order123" (Fin 100) "pending")
  /\ ProxyPattern.new (Some "order123") (Fin 100) None
    = Return (ProxyPattern.mkOrder "order123" (Fin 100) "pending")
  /\ SingleResponsibility.getStatus
       (SingleResponsibility.new "order123" (Some (Fin 100)))
    = SingleResponsibility.open.
Proof.
  apply (order_construction_default_status "order123" (Fin 100)).
  - discriminate.
  - simpl. discriminate.
Defined.

(** C2 as stated fails in the proxy example: zero is a non-negative amount
    and "order123" a non-empty identifier, yet the constructor throws. *)
Lemma proxy_order_rejects_zero :
  nonneg zero /\ "order123" ≠ ""
  /\ ProxyPattern.new (Some "order123") zero None
     = Throw (mkError "Amount must be greater than zero").
Proof. repeat split; [simpl; discriminate | discriminate]. Qed.

(** C3. A negative amount makes every validating constructor throw its
    invalid-amount error; an empty or absent identifier, with an amount the
    constructor accepts, makes it throw its required-identifier error. No
    order is returned in either case. *)
Theorem order_construction_rejects (id : option string) (amount : number)
    (status : option string) :
  (negative amount ->
     OrderModel.new id amount status = Throw (mkError "Valor inválido")
     /\ ObserverPattern.new id amount status = Throw (mkError "Valor inválido")
     /\ ProxyPattern.new id amount status
        = Throw (mkError "Amount must be greater than zero"))
  /\ (missing id -> nonneg amount ->
     OrderModel.new id amount status = Throw (mkError "ID obrigatório")
     /\ ObserverPattern.new id amount status
        = Throw (mkError "ID obrigatório"))
  /\ (missing id -> positive_amount amount ->
     ProxyPattern.new id amount status
       = Throw (mkError "Order ID is required")).
Proof.
  unfold OrderModel.new, ObserverPattern.new, ProxyPattern.new.
  split; [|split].
  - intros Hneg.
    by rewrite (js_lt_zero_negative _ Hneg), (js_le_zero_negative _ Hneg).
  - intros Hid Hamount.
    by rewrite (js_lt_zero_nonneg _ Hamount), (falsy_missing _ Hid).
  - intros Hid Hamount.
    by rewrite (js_le_zero_positive _ Hamount), (falsy_missing _ Hid).
Qed.

Lemma order_construction_rejects_witness :
  (OrderModel.new (Some "invalid") (Fin (-1)) None
     = Throw (mkError "Valor inválido")
   /\ ObserverPattern.new (Some "invalid") (Fin (-1)) None
     = Throw (mkError "Valor inválido")
   /\ ProxyPattern.new (Some "invalid") (Fin (-1)) None
     = Throw (mkError "Amount must be greater than zero"))
  /\ (OrderModel.new (Some "") (Fin 100) None
     = Throw (mkError "ID obrigatório")
   /\ ObserverPattern.new (Some "") (Fin 100) None
     = Throw (mkError "ID obrigatório"))
  /\ ProxyPattern.new None (Fin 100) None
     = Throw (mkError "Order ID is required").
Proof.
  split; [|split].
  - apply (order_construction_rejects (Some "invalid") (Fin (-1)) None).
    reflexivity.
  - apply (order_construction_rejects (Some "") (Fin 100) None).
    + by right.
    + simpl. discriminate.
  - apply (order_construction_rejects None (Fin 100) None).
    + by left.
    + reflexivity.
Defined.

(** C8. Completing an order twice leaves it exactly as completing it once
    does: the status is ["completed"], the identifier and the amount are
    those the order had. *)
Theorem complete_idempotent :
  (forall o : OrderModel.Order,
     OrderModel.complete (OrderModel.complete o) = OrderModel.complete o
     /\ OrderModel.complete o
        = OrderModel.mkOrder (OrderModel.id o) (OrderModel.amount o)
                             "completed")
  /\ (forall o : ProxyPattern.Order,
     ProxyPattern.complete (ProxyPattern.complete o) = ProxyPattern.complete o
     /\ ProxyPattern.complete o
        = ProxyPattern.mkOrder (ProxyPattern.id o) (ProxyPattern.amount o)
                               "completed").
Proof. by split; intros o. Qed.

(** ** Facade *)

Section FacadeFacts.
Import OrderModel FacadePattern.
Context {W : Type}.
Implicit Types (f : OrderFacade (W := W)) (o : Order) (w : W).

(** One call through a field of the facade that returns. *)
Lemma process_returns f who o w tr r w' :
  service f who (id o) (amount o) w = (Return r, w') ->
  process f who (mkEnv o w tr)
    = (Return r, mkEnv o w' (tr ++ [mkCall who (id o) (amount o)])).
Proof. intros Hcall. unfold process. simpl. by rewrite Hcall. Qed.

(** A call that throws ends [processOrder]: the order is not completed. *)
Lemma processOrder_payment_throws f o w tr e w' :
  paymentService f (id o) (amount o) w = (Throw e, w') ->
  processOrder f (mkEnv o w tr)
    = (Throw e, mkEnv o w' (tr ++ [mkCall payment (id o) (amount o)])).
Proof.
  intros Hcall. unfold processOrder, mbind, Eff_bind, process. simpl.
  by rewrite Hcall.
Qed.

(** C1. When the three services return, [processOrder] has called the
    payment service first, then the inventory service, then the shipping
    service, each with the identifier and the amount of the order; it
    dropped what the last two returned, completed the order, and returns
    the payment service's value with the status ["completed"]. *)
Theorem processOrder_completes f o w tr (t i s : string) (w1 w2 w3 : W) :
  paymentService f (id o) (amount o) w = (Return t, w1) ->
  inventoryService f (id o) (amount o) w1 = (Return i, w2) ->
  shippingService f (id o) (amount o) w2 = (Return s, w3) ->
  processOrder f (mkEnv o w tr)
    = (Return (PaymentResult.mk t "completed"),
       mkEnv (mkOrder (id o) (amount o) "completed") w3
             (tr ++ [mkCall payment (id o) (amount o);
                     mkCall inventory (id o) (amount o);
                     mkCall shipping (id o) (amount o)])).
Proof.
  intros Hpay Hinv Hship.
  unfold processOrder, mbind, Eff_bind.
  rewrite (process_returns f payment o w tr t w1 Hpay).
  rewrite (process_returns f inventory o w1 _ i w2 Hinv).
  rewrite (process_returns f shipping o w2 _ s w3 Hship).
  simpl. by rewrite <- !app_assoc.
Qed.

End FacadeFacts.

Lemma processOrder_completes_witness :
  FacadePattern.processOrder FacadePattern.main_facade
    (FacadePattern.mkEnv (OrderModel.mkOrder "12345" (Fin 100) "pending")
                         [] [])
  = (Return (PaymentResult.mk "payment-processed" "completed"),
     FacadePattern.mkEnv
       (OrderModel.mkOrder "12345" (Fin 100) "completed")
       ["Processing payment for order ID: 12345 with value: 100";
        "Processing inventory for order ID: 12345 with value: 100";
        "Processing shipping for order ID: 12345 with value: 100"]
       [FacadePattern.mkCall FacadePattern.payment "12345" (Fin 100);
        FacadePattern.mkCall FacadePattern.inventory "12345" (Fin 100);
        FacadePattern.mkCall FacadePattern.shipping "12345" (Fin 100)]).
Proof.
  apply (processOrder_completes FacadePattern.main_facade
           (OrderModel.mkOrder "12345" (Fin 100) "pending") [] []
           "payment-processed" "inventory-updated" "shipping-processed"
           ["Processing payment for order ID: 12345 with value: 100"]
           ["Processing payment for order ID: 12345 with value: 100";
            "Processing inventory for order ID: 12345 with value: 100"]);
    vm_compute; reflexivity.
Defined.

(** ** Proxy *)

Section ProxyFacts.
Import ProxyPattern.
Context {toStr : NumberToString} {W : Type} {con : Console W}.
Implicit Types (env : Env (W := W)) (gw : IPaymentGateway (W := W)).

(** A call under a role other than "admin" throws and changes nothing. *)
Lemma processPayment_denied env amount orderId :
  userRole (this env) ≠ "admin" ->
  processPayment amount orderId env = (Throw accessDenied, env).
Proof.
  intros Hrole. unfold processPayment, mbind, Eff_bind, gets. simpl.
  by destruct (decide (userRole (this env) ≠ "admin")).
Qed.

Lemma processPayments_denied env args :
  userRole (this env) ≠ "admin" ->
  processPayments args env
    = (replicate (length args) (Throw accessDenied), env).
Proof.
  intros Hrole. induction args as [|[amount orderId] rest IH]; [done|].
  simpl. by rewrite (processPayment_denied _ _ _ Hrole), IH.
Qed.

(** C4. A proxy built with a role other than "admin" answers every call,
    whatever its arguments and however many calls are made, by throwing
    the access-denied error; its gateway has received no call, and
    neither the world nor the cache has changed. *)
Theorem non_admin_never_reaches_gateway gw (role : string) (w : W)
    (args : list (number * string)) :
  role ≠ "admin" ->
  processPayments args (mkEnv (newPaymentProxy gw role) w [])
    = (replicate (length args) (Throw accessDenied),
       mkEnv (newPaymentProxy gw role) w []).
Proof. intros Hrole. by apply processPayments_denied. Qed.

(** A call by an administrator that finds its key in the cache returns
    the cached result and leaves the gateway alone. *)
Lemma processPayment_hit env amount orderId r :
  userRole (this env) = "admin" ->
  cache (this env) !! (orderId +:+ "_" +:+ numberToString amount) = Some r ->
  processPayment amount orderId env
    = (Return r,
       mkEnv (this env)
             (console_log ("Retornando resultado do cache para pedido "
                           +:+ orderId) (world env))
             (calls env)).
Proof.
  intros Hrole Hhit. unfold processPayment, mbind, Eff_bind, gets. simpl.
  destruct (decide (userRole (this env) ≠ "admin")); [done|].
  by rewrite Hhit.
Qed.

(** A call by an administrator that misses the cache goes to the gateway
    once and stores what the gateway returned. *)
Lemma processPayment_miss env amount orderId r w' :
  userRole (this env) = "admin" ->
  cache (this env) !! (orderId +:+ "_" +:+ numberToString amount) = None ->
  realProcessor (this env) amount orderId (world env) = (Return r, w') ->
  processPayment amount orderId env
    = (Return r,
       mkEnv (mkPaymentProxy
                (<[orderId +:+ "_" +:+ numberToString amount := r]>
                   (cache (this env)))
                (realProcessor (this env)) (userRole (this env)))
             w' (calls env ++ [(amount, orderId)])).
Proof.
  intros Hrole Hmiss Hgw.
  unfold processPayment, mbind, Eff_bind, gets, delegate. simpl.
  destruct (decide (userRole (this env) ≠ "admin")); [done|].
  rewrite Hmiss. simpl. by rewrite Hgw.
Qed.

(** What the gateway throws passes through, and nothing is cached. *)
Lemma processPayment_gateway_throws env amount orderId e w' :
  userRole (this env) = "admin" ->
  cache (this env) !! (orderId +:+ "_" +:+ numberToString amount) = None ->
  realProcessor (this env) amount orderId (world env) = (Throw e, w') ->
  processPayment amount orderId env
    = (Throw e, mkEnv (this env) w' (calls env ++ [(amount, orderId)])).
Proof.
  intros Hrole Hmiss Hgw.
  unfold processPayment, mbind, Eff_bind, gets, delegate. simpl.
  destruct (decide (userRole (this env) ≠ "admin")); [done|].
  rewrite Hmiss. simpl. by rewrite Hgw.
Qed.

(** C5. Two successive calls by an administrator with the same order
    identifier and amount, the key not being cached yet and the gateway
    returning a result: the first call goes to the gateway and stores the
    result under the key made of the identifier, "_" and the amount; the
    second returns that result from the cache. The gateway has received
    exactly one call more than before. *)
Theorem admin_repeated_call_cached env amount orderId r w' :
  userRole (this env) = "admin" ->
  cache (this env) !! (orderId +:+ "_" +:+ numberToString amount) = None ->
  realProcessor (this env) amount orderId (world env) = (Return r, w') ->
  processPayments [(amount, orderId); (amount, orderId)] env
    = ([Return r; Return r],
       mkEnv (mkPaymentProxy
                (<[orderId +:+ "_" +:+ numberToString amount := r]>
                   (cache (this env)))
                (realProcessor (this env)) (userRole (this env)))
             (console_log ("Retornando resultado do cache para pedido "
                           +:+ orderId) w')
             (calls env ++ [(amount, orderId)])).
Proof.
  intros Hrole Hmiss Hgw. simpl.
  rewrite (processPayment_miss _ _ _ _ _ Hrole Hmiss Hgw).
  erewrite processPayment_hit; [done|done|].
  simpl. by rewrite lookup_insert_eq.
Qed.

End ProxyFacts.

Lemma non_admin_never_reaches_gateway_witness :
  ProxyPattern.processPayments (toStr := decimal)
    [(Fin 100, "order123"); (Fin 100, "order123"); (Fin 7, "order9")]
    (ProxyPattern.mkEnv (ProxyPattern.main_proxy "guest") [] [])
  = ([Throw ProxyPattern.accessDenied; Throw ProxyPattern.accessDenied;
      Throw ProxyPattern.accessDenied],
     ProxyPattern.mkEnv (ProxyPattern.main_proxy "guest") [] []).
Proof.
  apply (non_admin_never_reaches_gateway (toStr := decimal)
           (ProxyPattern.RealOrderProcessorPayment (toStr := decimal)) "guest" []
           [(Fin 100, "order123"); (Fin 100, "order123"); (Fin 7, "order9")]).
  discriminate.
Defined.

Lemma admin_repeated_call_cached_witness :
  ProxyPattern.processPayments (toStr := decimal)
    [(Fin 100, "order123"); (Fin 100, "order123")]
    (ProxyPattern.mkEnv (ProxyPattern.main_proxy "admin") [] [])
  = ([Return (PaymentResult.mk "txn_order123" "success");
      Return (PaymentResult.mk "txn_order123" "success")],
     ProxyPattern.mkEnv
       (ProxyPattern.mkPaymentProxy
          (<["order123_100" := PaymentResult.mk "txn_order123" "success"]> ∅)
          (ProxyPattern.RealOrderProcessorPayment (toStr := decimal)) "admin")
       ["Processing payment of 100 for order order123";
        "Retornando resultado do cache para pedido order123"]
       [(Fin 100, "order123")]).
Proof.
  etrans.
  - apply (admin_repeated_call_cached (toStr := decimal)
             (ProxyPattern.mkEnv (ProxyPattern.main_proxy "admin") [] [])
             (Fin 100) "order123"
             (PaymentResult.mk "txn_order123" "success")
             ["Processing payment of 100 for order order123"]).
    + reflexivity.
    + apply lookup_empty.
    + vm_compute. reflexivity.
  - vm_compute. reflexivity.
Defined.

(** ** Observer *)

Section ObserverFacts.
Import ObserverPattern.
Context {Observer : Type} `{EqDecision Observer} {W : Type}.
Variable update : Observer -> string -> Eff W unit.
Implicit Types (env : Env (Observer := Observer) (W := W))
               (l called : list Observer) (x o : Observer).

(** The loop of [notify]: the observers called form a prefix of the list,
    each is called with the status the order has, and the loop stops at
    the first observer that throws. *)
Lemma notify_each_spec l env :
  exists called w',
    called `prefix_of` l
    /\ snd (notify_each update l env)
       = mkEnv (this env) w'
           (updates env
            ++ map (fun o => (o, status (order (this env)))) called)
    /\ match fst (notify_each update l env) with
       | Return _ => called = l
       | Throw e =>
           exists pre o post w0 w1,
             l = pre ++ o :: post /\ called = pre ++ [o]
             /\ update o (status (order (this env))) w0 = (Throw e, w1)
       end.
Proof.
  revert env. induction l as [|o rest IH]; intros env.
  - exists [], (world env). simpl. rewrite app_nil_r.
    split; [done|]. split; [by destruct env|done].
  - simpl. unfold mbind, Eff_bind, call_update.
    destruct (update o (status (order (this env))) (world env))
      as [[[]|e] w] eqn:Hupd.
    + destruct (IH (mkEnv (this env) w
                      (updates env ++ [(o, status (order (this env)))])))
        as (called & w' & Hpre & Hsnd & Hfst).
      simpl in *. exists (o :: called), w'.
      split; [by apply prefix_cons|].
      split; [by rewrite Hsnd, <- app_assoc|].
      destruct (fst (notify_each update rest _)) as [?|e]; [by subst|].
      destruct Hfst as (pre & o' & post & w0 & w1 & -> & -> & Hthrow).
      by exists (o :: pre), o', post, w0, w1.
    + exists [o], w. simpl.
      split; [by apply prefix_cons, prefix_nil|]. split; [done|].
      by exists [], o, rest, (world env), w.
Qed.

(** [setStatus] is the loop of [notify] run on the subject whose order
    carries the new status. *)
Lemma setStatus_unfold env (s : string) :
  setStatus update s env
    = notify_each update (observers (this env))
        (mkEnv (mkOrderSubject (observers (this env))
                  (set_status s (order (this env))))
               (world env) (updates env)).
Proof. done. Qed.

(** [indexOf] finds the first place that holds [x]. *)
Lemma indexOf_from_spec (i : Z) l x :
  ((x ∉ l) /\ indexOf_from i l x = (-1)%Z)
  \/ (exists pre post,
        l = pre ++ x :: post /\ (x ∉ pre)
        /\ indexOf_from i l x = (i + Z.of_nat (length pre))%Z).
Proof.
  revert i. induction l as [|y rest IH]; intros i; simpl.
  - left. split; [apply not_elem_of_nil|done].
  - destruct (decide (y = x)) as [->|Hne].
    + right. exists [], rest. simpl.
      split; [done|]. split; [apply not_elem_of_nil|lia].
    + destruct (IH (i + 1)%Z) as [[Hnot ->]|(pre & post & -> & Hpre & ->)].
      * left. split; [|done]. by apply not_elem_of_cons.
      * right. exists (y :: pre), post. simpl.
        split; [done|]. split; [|lia].
        apply not_elem_of_cons. by split; [congruence|].
Qed.

(** [removeObserver] takes the first registration of [x] out and leaves
    the rest of the list, the order, the world and the trace as they
    were; it does nothing when [x] is not registered. *)
Lemma removeObserver_spec env x :
  ((x ∉ observers (this env)) /\ snd (removeObserver x env) = env)
  \/ (exists pre post,
        observers (this env) = pre ++ x :: post /\ (x ∉ pre)
        /\ snd (removeObserver x env)
           = mkEnv (mkOrderSubject (pre ++ post) (order (this env)))
                   (world env) (updates env)).
Proof.
  unfold removeObserver, modify, indexOf. simpl.
  destruct (indexOf_from_spec 0 (observers (this env)) x)
    as [[Hnot ->]|(pre & post & Hl & Hpre & ->)].
  - left. by rewrite decide_False by (intros Hneq; by apply Hneq).
  - right. exists pre, post. rewrite decide_True by lia.
    split; [done|]. split; [done|].
    unfold splice1. rewrite Hl.
    replace (Z.to_nat (0 + Z.of_nat (length pre))) with (length pre) by lia.
    by rewrite delete_middle.
Qed.

Lemma filter_other_id l x : x ∉ l -> filter (fun o => o ≠ x) l = l.
Proof.
  induction l as [|y rest IH]; [done|].
  intros [Hne Hrest]%not_elem_of_cons.
  rewrite filter_cons_True by congruence. by rewrite IH.
Qed.

Lemma registrations_zero l x : registrations x l = 0 -> x ∉ l.
Proof.
  unfold registrations. intros Hlen.
  apply (filter_nil_not_elem_of (fun o => o = x)); [|done].
  by apply nil_length_inv.
Qed.

(** With at most one registration of [x], taking the first one out leaves
    no registration of [x] and keeps every other observer in place. *)
Lemma removeObserver_once env x :
  (registrations x (observers (this env)) ≤ 1)%nat ->
  snd (removeObserver x env)
    = mkEnv (mkOrderSubject (filter (fun o => o ≠ x) (observers (this env)))
                            (order (this env)))
            (world env) (updates env).
Proof.
  intros Hcount.
  destruct (removeObserver_spec env x)
    as [[Hnot ->]|(pre & post & Hl & Hpre & ->)].
  - rewrite (filter_other_id _ _ Hnot). by destruct env as [[] ? ?].
  - rewrite Hl in *. unfold registrations in Hcount.
    rewrite filter_app, filter_cons_True, length_app in Hcount by done.
    simpl in Hcount.
    assert (x ∉ post) as Hpost by (apply registrations_zero;
      unfold registrations; lia).
    rewrite filter_app, filter_cons_False by (by intros Hxx; apply Hxx).
    by rewrite !filter_other_id.
Qed.

(** [setStatus] keeps the list of observers, and every call it adds to
    the trace is a call to a registered observer with the new status. *)
Lemma setStatus_frame env (s : string) :
  observers (this (snd (setStatus update s env))) = observers (this env)
  /\ forall o s',
       (o, s') ∈ updates (snd (setStatus update s env)) ->
       (o, s') ∈ updates env \/ (o ∈ observers (this env) /\ s' = s).
Proof.
  rewrite setStatus_unfold.
  destruct (notify_each_spec (observers (this env))
              (mkEnv (mkOrderSubject (observers (this env))
                        (set_status s (order (this env))))
                     (world env) (updates env)))
    as (called & w' & [rest Hpre] & -> & _). simpl.
  split; [done|]. intros o s' [Hin|Hin]%elem_of_app; [by left|right].
  apply list_elem_of_fmap in Hin as (o' & [= -> ->] & Hin).
  split; [|done]. rewrite Hpre. apply elem_of_app. by left.
Qed.

(** A [setStatus] that returns has called every registered observer, in
    registration order, with the new status. *)
Lemma setStatus_returns env (s : string) :
  fst (setStatus update s env) = Return tt ->
  updates (snd (setStatus update s env))
    = updates env ++ map (fun o => (o, s)) (observers (this env)).
Proof.
  rewrite setStatus_unfold.
  destruct (notify_each_spec (observers (this env))
              (mkEnv (mkOrderSubject (observers (this env))
                        (set_status s (order (this env))))
                     (world env) (updates env)))
    as (called & w' & _ & -> & Hfst).
  intros Hret. rewrite Hret in Hfst. simpl. by rewrite Hfst.
Qed.

Lemma setStatuses_frame (statuses : list string) env :
  observers (this (setStatuses update statuses env)) = observers (this env)
  /\ forall o s',
       (o, s') ∈ updates (setStatuses update statuses env) ->
       (o, s') ∈ updates env \/ o ∈ observers (this env).
Proof.
  revert env. induction statuses as [|s rest IH]; intros env; simpl.
  - split; [done|]. by left.
  - destruct (IH (snd (setStatus update s env))) as [Hobs Hupd].
    destruct (setStatus_frame env s) as [Hobs1 Hupd1].
    split; [congruence|]. intros o s' Hin.
    destruct (Hupd o s' Hin) as [Hold|Hreg].
    + destruct (Hupd1 o s' Hold) as [?|[? _]]; [by left|by right].
    + right. congruence.
Qed.

End ObserverFacts.

(** C6 as stated fails when an observer was added twice: [removeObserver]
    takes out its first registration only, and the next [setStatus] still
    calls it. *)
Lemma duplicate_registration_survives_removal :
  ObserverPattern.updates
    (ObserverPattern.setStatuses ObserverPattern.notifier_update ["delivered"]
       (snd (ObserverPattern.removeObserver ObserverPattern.smsNotifier
               (ObserverPattern.addObservers
                  [ObserverPattern.emailNotifier; ObserverPattern.smsNotifier;
                   ObserverPattern.smsNotifier]
                  ObserverPattern.main_env))))
  = [(ObserverPattern.emailNotifier, "delivered");
     (ObserverPattern.smsNotifier, "delivered")].
Proof. vm_compute. reflexivity. Qed.

(** ** Template method *)

Section TemplateFacts.
Import OrderModel TemplateMethodPattern.
Context {W : Type} {template : PaymentTemplate (W := W)}.
Implicit Types (env : Env (W := W)) (o : Order).

(** C9. On an order whose amount is zero or negative, [processPayment]
    throws the invalid-amount error at the validation: no step of the
    payment has run, and the order, the world and the trace are what they
    were. *)
Theorem processPayment_rejects_amount env :
  nonpositive (amount (order env)) ->
  processPayment env
    = (Throw (mkError "Valor inválido para pagamento"), env).
Proof.
  intros Hamount.
  unfold processPayment, validateOrder, mbind, Eff_bind, gets. simpl.
  by rewrite (js_le_zero_nonpositive _ Hamount).
Qed.

End TemplateFacts.

Lemma processPayment_rejects_amount_witness :
  OrderModel.new (Some "order123") zero None
    = Return (OrderModel.mkOrder "order123" zero "pending")
  /\ TemplateMethodPattern.processPayment
       (template := TemplateMethodPattern.CreditPayment (toStr := decimal))
       (TemplateMethodPattern.mkEnv
          (OrderModel.mkOrder "order123" zero "pending")
          (TemplateMethodPattern.mkRuntime 0 []) [])
     = (Throw (mkError "Valor inválido para pagamento"),
        TemplateMethodPattern.mkEnv
          (OrderModel.mkOrder "order123" zero "pending")
          (TemplateMethodPattern.mkRuntime 0 []) []).
Proof.
  split; [reflexivity|].
  apply (processPayment_rejects_amount
           (template := TemplateMethodPattern.CreditPayment (toStr := decimal))).
  simpl. discriminate.
Defined.

(** ** Singleton *)

Section HeapFacts.
Import SingletonPattern.
Implicit Types (w : World) (l : loc) (c : Config.t).

Lemma alloc_spec c w :
  exists l,
    alloc c w = (Return l, mkWorld (<[l := c]> (heap w)) (instance w))
    /\ heap w !! l = None.
Proof.
  exists (fresh (dom (heap w))). split; [done|].
  apply not_elem_of_dom, is_fresh.
Qed.

Lemma read_spec l w c : heap w !! l = Some c -> read l w = (Return c, w).
Proof. intros Hl. unfold read. by rewrite Hl. Qed.

(** An assignment to a field of one record leaves every other record and
    the static slot as they were. *)
Lemma set_apiKey_frame l (v : string) w l0 :
  l ≠ l0 ->
  heap (snd (set_apiKey l v w)) !! l0 = heap w !! l0
  /\ instance (snd (set_apiKey l v w)) = instance w.
Proof.
  intros Hne. unfold set_apiKey, mbind, Eff_bind, read, modify.
  destruct (heap w !! l); simpl; [|done]. by rewrite lookup_insert_ne.
Qed.

Lemma set_timeout_frame l (v : number) w l0 :
  l ≠ l0 ->
  heap (snd (set_timeout l v w)) !! l0 = heap w !! l0
  /\ instance (snd (set_timeout l v w)) = instance w.
Proof.
  intros Hne. unfold set_timeout, mbind, Eff_bind, read, modify.
  destruct (heap w !! l); simpl; [|done]. by rewrite lookup_insert_ne.
Qed.

(** [{ ...this.config }]: a record at an address nothing held before,
    with the fields of the stored one. *)
Lemma spread_copy l0 w c :
  heap w !! l0 = Some c ->
  exists l,
    (x ← read l0; alloc x) w
      = (Return l, mkWorld (<[l := c]> (heap w)) (instance w))
    /\ heap w !! l = None.
Proof.
  intros Hl0. unfold mbind, Eff_bind. rewrite (read_spec _ _ _ Hl0).
  apply alloc_spec.
Qed.

End HeapFacts.

(** A client that does not hold the record a manager keeps, and does not
    call [setConfig], leaves that record as it was. *)
Section ClientFrame.
Import SingletonPattern.
Variable svc : ConfigService.
Variable l0 : loc.
Variable good : World -> Prop.
Hypothesis good_heap :
  forall w h, good w -> good (mkWorld h (instance w)).
Hypothesis good_getConfig :
  forall w c, good w -> heap w !! l0 = Some c ->
    exists l,
      svc_getConfig svc w
        = (Return l, mkWorld (<[l := c]> (heap w)) (instance w))
      /\ heap w !! l = None.

Lemma good_same_instance w w' :
  good w -> instance w' = instance w -> good w'.
Proof.
  intros Hgood Hinst. destruct w' as [h i]. simpl in Hinst. subst i.
  by apply good_heap.
Qed.

Lemma run_op_frame c op cl :
  is_setConfig op = false -> client_ok good l0 c cl -> client_ok good l0 c (run_op svc op cl).
Proof.
  intros Hop (Hgood & Hl0 & Hrec).
  destruct op as [|k t|i v|i v]; simpl in *; [|done| |].
  - destruct (good_getConfig _ _ Hgood Hl0) as (l & -> & Hfresh).
    assert (l ≠ l0) by congruence.
    split; [by apply good_heap|]. simpl.
    split; [by rewrite lookup_insert_ne|].
    apply Forall_app. split; [done|]. by apply Forall_singleton.
  - destruct (records cl !! i) as [l|] eqn:Hi; [|done].
    assert (l ≠ l0) as Hne
      by (eapply (Forall_lookup_1 _ _ _ _ Hrec Hi)).
    destruct (set_apiKey_frame l v (world cl) l0 Hne) as [Hheap Hinst].
    split; [by eapply good_same_instance|]. simpl.
    split; [congruence|done].
  - destruct (records cl !! i) as [l|] eqn:Hi; [|done].
    assert (l ≠ l0) as Hne
      by (eapply (Forall_lookup_1 _ _ _ _ Hrec Hi)).
    destruct (set_timeout_frame l v (world cl) l0 Hne) as [Hheap Hinst].
    split; [by eapply good_same_instance|]. simpl.
    split; [congruence|done].
Qed.

Lemma run_frame c ops cl :
  no_setConfig ops = true ->
  client_ok good l0 c cl -> client_ok good l0 c (run svc ops cl).
Proof.
  revert cl. induction ops as [|op ops IH]; intros cl Hops Hok; [done|].
  unfold no_setConfig in *. simpl in Hops. apply andb_true_iff in Hops as [Hop Hops].
  apply negb_true_iff in Hop. simpl.
  by apply IH, run_op_frame.
Qed.

End ClientFrame.

Section SingletonFacts.
Import SingletonPattern.
Implicit Types (w : World) (c : Config.t) (cl : Client)
               (ops : list ClientOp).

Lemma getInstance_created (m : ConfigManager) w :
  instance w = Some m -> getInstance w = (Return m, w).
Proof.
  intros Hm. unfold getInstance, mbind, Eff_bind, gets. simpl.
  by rewrite Hm.
Qed.

Lemma singleton_getConfig (m : ConfigManager) w c :
  instance w = Some m -> heap w !! config m = Some c ->
  exists l,
    svc_getConfig singleton_service w
      = (Return l, mkWorld (<[l := c]> (heap w)) (instance w))
    /\ heap w !! l = None.
Proof.
  intros Hm Hc. simpl. unfold mbind at 1, Eff_bind at 1.
  rewrite (getInstance_created _ _ Hm). by apply spread_copy.
Qed.

(** C10, as the code has it. [getConfig], in either class, returns a
    record at a fresh address that carries the stored fields. A client
    that does not hold the manager's own record, whatever it assigns to
    the records it was handed and however often it calls [getConfig],
    leaves the stored configuration as it was unless it calls
    [setConfig], and a later [getConfig] returns the stored fields again.
    Nothing hands out the record of the singleton; an injected manager
    keeps the record it was built on, which its creator may still hold. *)
Theorem getConfig_returns_fresh_copy :
  (forall (m : ConfigManager) w c,
     heap w !! config m = Some c ->
     exists l,
       getConfig m w
         = (Return l, mkWorld (<[l := c]> (heap w)) (instance w))
       /\ heap w !! l = None)
  /\ (forall (m : Injected.ConfigManagerInjected) w c,
     heap w !! Injected.config m = Some c ->
     exists l,
       Injected.getConfig m w
         = (Return l, mkWorld (<[l := c]> (heap w)) (instance w))
       /\ heap w !! l = None)
  /\ (forall (m : ConfigManager) c ops cl,
     instance (world cl) = Some m ->
     heap (world cl) !! config m = Some c ->
     Forall (fun l => l ≠ config m) (records cl) ->
     no_setConfig ops = true ->
     stored (world (run singleton_service ops cl)) = Some c
     /\ exists l w',
         svc_getConfig singleton_service
           (world (run singleton_service ops cl)) = (Return l, w')
         /\ heap w' !! l = Some c /\ stored w' = Some c)
  /\ (forall (m : Injected.ConfigManagerInjected) c ops cl,
     heap (world cl) !! Injected.config m = Some c ->
     Forall (fun l => l ≠ Injected.config m) (records cl) ->
     no_setConfig ops = true ->
     heap (world (run (injected_service m) ops cl)) !! Injected.config m
       = Some c
     /\ exists l w',
         svc_getConfig (injected_service m)
           (world (run (injected_service m) ops cl)) = (Return l, w')
         /\ heap w' !! l = Some c
         /\ heap w' !! Injected.config m = Some c).
Proof.
  split; [|split; [|split]].
  - intros m w c Hc. by apply spread_copy.
  - intros m w c Hc. by apply spread_copy.
  - intros m c ops cl Hm Hc Hrec Hops.
    destruct (run_frame singleton_service (config m)
                (fun w => instance w = Some m)
                (fun w h Hw => Hw)
                (fun w c' Hw Hc' => singleton_getConfig m w c' Hw Hc')
                c ops cl Hops (conj Hm (conj Hc Hrec)))
      as (Hm' & Hc' & _).
    unfold stored. rewrite Hm'. simpl. split; [done|].
    destruct (singleton_getConfig m _ c Hm' Hc') as (l & Hget & Hfresh).
    eexists l, _. split; [exact Hget|]. simpl.
    rewrite lookup_insert_eq, Hm'. simpl.
    split; [done|]. rewrite lookup_insert_ne by congruence. done.
  - intros m c ops cl Hc Hrec Hops.
    destruct (run_frame (injected_service m) (Injected.config m)
                (fun _ => True) (fun _ _ _ => I)
                (fun w c' _ Hc' => spread_copy (Injected.config m) w c' Hc')
                c ops cl Hops (conj I (conj Hc Hrec)))
      as (_ & Hc' & _).
    split; [done|].
    destruct (spread_copy (Injected.config m) _ c Hc')
      as (l & Hget & Hfresh).
    eexists l, _. split; [exact Hget|]. simpl.
    rewrite lookup_insert_eq. split; [done|].
    rewrite lookup_insert_ne by congruence. done.
Qed.

End SingletonFacts.

(** C10 as stated fails for the injected manager: its creator still holds
    the record it passed to the constructor, and an assignment to that
    record changes what the manager stores, with no call to [setConfig]. *)
Lemma injected_config_shared_with_creator :
  SingletonPattern.no_setConfig [SingletonPattern.writeApiKey 0 "changed"]
    = true
  /\ SingletonPattern.heap
       (SingletonPattern.world SingletonPattern.injected_client)
     !! SingletonPattern.Injected.config SingletonPattern.injected_manager
     = Some (SingletonPattern.Config.mk "injected-key" (Fin 10000))
  /\ SingletonPattern.heap
       (SingletonPattern.world
          (SingletonPattern.run
             (SingletonPattern.injected_service
                SingletonPattern.injected_manager)
             [SingletonPattern.writeApiKey 0 "changed"]
             SingletonPattern.injected_client))
     !! SingletonPattern.Injected.config SingletonPattern.injected_manager
     = Some (SingletonPattern.Config.mk "changed" (Fin 10000)).
Proof. vm_compute. done. Qed.

Lemma getConfig_returns_fresh_copy_witness :
  SingletonPattern.stored
    (SingletonPattern.world
       (SingletonPattern.run SingletonPattern.singleton_service
          [SingletonPattern.callGetConfig;
           SingletonPattern.writeApiKey 0 "mine";
           SingletonPattern.writeTimeout 0 (Fin 1);
           SingletonPattern.callGetConfig]
          SingletonPattern.singleton_client))
  = Some (SingletonPattern.Config.mk "default-key" (Fin 3000))
  /\ SingletonPattern.heap
       (SingletonPattern.world
          (SingletonPattern.run
             (SingletonPattern.injected_service
                SingletonPattern.injected_manager)
             [SingletonPattern.callGetConfig;
              SingletonPattern.writeApiKey 0 "mine"]
             (SingletonPattern.mkClient
                (SingletonPattern.world SingletonPattern.injected_client)
                [])))
     !! SingletonPattern.Injected.config SingletonPattern.injected_manager
     = Some (SingletonPattern.Config.mk "injected-key" (Fin 10000)).
Proof.
  destruct getConfig_returns_fresh_copy as (_ & _ & Hsingleton & Hinjected).
  split.
  - apply (Hsingleton (SingletonPattern.mkConfigManager 2%positive)).
    + vm_compute. reflexivity.
    + vm_compute. reflexivity.
    + apply Forall_nil_2.
    + reflexivity.
  - apply (Hinjected SingletonPattern.injected_manager).
    + vm_compute. reflexivity.
    + apply Forall_nil_2.
    + reflexivity.
Defined.

(** ** The tests of the repository, run on the model *)

(** [order-facade.test.ts]: "should process the order correctly". *)
Example facade_test_process :
  let '(r, env) :=
    FacadePattern.processOrder FacadePattern.test_facade
      (FacadePattern.mkEnv (OrderModel.mkOrder "12345" (Fin 100) "pending")
                           [] []) in
  (PaymentResult.status <$> match r with Return x => Some x | _ => None end)
    = Some "completed"
  /\ OrderModel.status (FacadePattern.order env) = "completed"
  /\ "Processing shipping for order ID: 12345 with value: 100"
       ∈ FacadePattern.world env
  /\ "Processing payment for order ID: 12345 with value: 100"
       ∈ FacadePattern.world env
  /\ "Processing inventory for order ID: 12345 with value: 100"
       ∈ FacadePattern.world env.
Proof. vm_compute. repeat split; apply list_elem_of_In; simpl; tauto. Qed.

(** [payment-proxy.test.ts]: "deve processar pagamento para admin". *)
Example proxy_test_admin :
  ProxyPattern.processPayment (toStr := decimal) (Fin 100) "order123"
    (ProxyPattern.mkEnv (ProxyPattern.main_proxy "admin") [] [])
  = (Return (PaymentResult.mk "txn_order123" "success"),
     ProxyPattern.mkEnv
       (ProxyPattern.mkPaymentProxy
          (<["order123_100" := PaymentResult.mk "txn_order123" "success"]> ∅)
          (ProxyPattern.RealOrderProcessorPayment (toStr := decimal))
          "admin")
       ["Processing payment of 100 for order order123"]
       [(Fin 100, "order123")]).
Proof. vm_compute. reflexivity. Qed.

(** [order-observer.spec.ts]: "deve notificar observadores ao mudar
    status" and "deve remover observadores corretamente". *)
Example observer_test_notify :
  ObserverPattern.world
    (ObserverPattern.setStatuses ObserverPattern.notifier_update ["shipped"]
       (ObserverPattern.addObservers
          [ObserverPattern.emailNotifier; ObserverPattern.smsNotifier]
          ObserverPattern.main_env))
  = ["Email notification sent: Order status changed to shipped";
     "Enviando SMS: Status do pedido atualizado para shipped"].
Proof. vm_compute. reflexivity. Qed.

Example observer_test_remove :
  ObserverPattern.world
    (ObserverPattern.setStatuses ObserverPattern.notifier_update ["delivered"]
       (snd (ObserverPattern.removeObserver ObserverPattern.smsNotifier
               (ObserverPattern.addObservers
                  [ObserverPattern.emailNotifier; ObserverPattern.smsNotifier]
                  ObserverPattern.main_env))))
  = ["Email notification sent: Order status changed to delivered"].
Proof. vm_compute. reflexivity. Qed.

(** [payment-template.test.ts]: "should process credit payment
    successfully" and "should throw error for invalid order amount". *)
Example template_test_credit :
  TemplateMethodPattern.processPayment
    (template := TemplateMethodPattern.CreditPayment (toStr := decimal))
    (TemplateMethodPattern.mkEnv
       (OrderModel.mkOrder "order123" (Fin 100) "pending")
       (TemplateMethodPattern.mkRuntime 1700000000000 []) [])
  = (Return (PaymentResult.mk "txn-1700000000000" "success"),
     TemplateMethodPattern.mkEnv
       (OrderModel.mkOrder "order123" (Fin 100) "completed")
       (TemplateMethodPattern.mkRuntime 1700000000000
          ["Processing credit payment of 100 using credit"])
       [TemplateMethodPattern.prepared (Fin 100);
        TemplateMethodPattern.executed
          (TemplateMethodPattern.PaymentDetails.mk (Fin 100) "credit");
        TemplateMethodPattern.completed]).
Proof. vm_compute. reflexivity. Qed.

Example template_test_invalid :
  fst (TemplateMethodPattern.processPayment
         (template := TemplateMethodPattern.CreditPayment (toStr := decimal))
         (TemplateMethodPattern.mkEnv
            (OrderModel.mkOrder "order123" (Fin (-50)) "pending")
            (TemplateMethodPattern.mkRuntime 1700000000000 []) []))
  = Throw (mkError "Valor inválido para pagamento").
Proof. vm_compute. reflexivity. Qed.

(** [config-manager.test.ts]: the default configuration, the shared
    instance, the injected configuration, the independent instances. *)
Example singleton_test_default :
  fst ((m ← SingletonPattern.getInstance;
        l ← SingletonPattern.getConfig m;
        SingletonPattern.read l) SingletonPattern.initial)
  = Return (SingletonPattern.Config.mk "default-key" (Fin 3000)).
Proof. vm_compute. reflexivity. Qed.

Example singleton_test_shared :
  fst ((config1 ← SingletonPattern.getInstance;
        config2 ← SingletonPattern.getInstance;
        SingletonPattern.setConfig config1 "test-key" (Fin 1000);;
        l ← SingletonPattern.getConfig config2;
        SingletonPattern.read l) SingletonPattern.initial)
  = Return (SingletonPattern.Config.mk "test-key" (Fin 1000)).
Proof. vm_compute. reflexivity. Qed.

Example injected_test_independent :
  fst ((o1 ← SingletonPattern.alloc
               (SingletonPattern.Config.mk "key1" (Fin 1000));
        config1 ← SingletonPattern.Injected.new (Some o1);
        o2 ← SingletonPattern.alloc
               (SingletonPattern.Config.mk "key2" (Fin 5000));
        config2 ← SingletonPattern.Injected.new (Some o2);
        SingletonPattern.Injected.setConfig config1 "new-key1" (Fin 2000);;
        l ← SingletonPattern.Injected.getConfig config2;
        SingletonPattern.read l) SingletonPattern.initial)
  = Return (SingletonPattern.Config.mk "key2" (Fin 5000)).
Proof. vm_compute. reflexivity. Qed.

(** * Further properties of the examples *)

(** A bound computation continues from what its first part returned. *)
Lemma Eff_bind_return {St A B : Type} (m : Eff St A) (k : A -> Eff St B)
    (st st' : St) (a : A) :
  m st = (Return a, st') -> (x ← m; k x) st = k a st'.
Proof. intros Hm. unfold mbind, Eff_bind. by rewrite Hm. Qed.

Lemma Eff_bind_throw {St A B : Type} (m : Eff St A) (k : A -> Eff St B)
    (st st' : St) (e : Error) :
  m st = (Throw e, st') -> (x ← m; k x) st = (Throw e, st').
Proof. intros Hm. unfold mbind, Eff_bind. by rewrite Hm. Qed.

(** ** Proxy: the cache *)

Section ProxyCacheFacts.
Import ProxyPattern.
Context {toStr : NumberToString} {W : Type} {con : Console W}.
Implicit Types (env : Env (W := W)) (gw : IPaymentGateway (W := W))
               (args : list (number * string)).

(** The four ways a call can go. *)
Lemma processPayment_cases env amount orderId :
  (userRole (this env) ≠ "admin"
   /\ processPayment amount orderId env = (Throw accessDenied, env))
  \/ (exists r,
        cache (this env) !! (orderId +:+ "_" +:+ numberToString amount)
          = Some r
        /\ processPayment amount orderId env
           = (Return r,
              mkEnv (this env)
                    (console_log
                       ("Retornando resultado do cache para pedido "
                        +:+ orderId) (world env))
                    (calls env)))
  \/ (exists r w',
        cache (this env) !! (orderId +:+ "_" +:+ numberToString amount)
          = None
        /\ realProcessor (this env) amount orderId (world env)
           = (Return r, w')
        /\ processPayment amount orderId env
           = (Return r,
              mkEnv (mkPaymentProxy
                       (<[orderId +:+ "_" +:+ numberToString amount := r]>
                          (cache (this env)))
                       (realProcessor (this env)) (userRole (this env)))
                    w' (calls env ++ [(amount, orderId)])))
  \/ (exists e w',
        cache (this env) !! (orderId +:+ "_" +:+ numberToString amount)
          = None
        /\ processPayment amount orderId env
           = (Throw e,
              mkEnv (this env) w' (calls env ++ [(amount, orderId)]))).
Proof.
  destruct (decide (userRole (this env) = "admin")) as [Hrole|Hrole].
  - right.
    destruct (cache (this env) !! (orderId +:+ "_" +:+ numberToString amount))
      as [r|] eqn:Hkey.
    + left. exists r. split; [done|]. by apply processPayment_hit.
    + right.
      destruct (realProcessor (this env) amount orderId (world env))
        as [[r|e] w'] eqn:Hgw.
      * left. exists r, w'. split; [done|]. split; [done|].
        by apply processPayment_miss.
      * right. exists e, w'. split; [done|].
        by eapply processPayment_gateway_throws.
  - left. split; [done|]. by apply processPayment_denied.
Qed.

Lemma processPayment_keeps_cached env amount orderId key r :
  cache (this env) !! key = Some r ->
  cache (this (snd (processPayment amount orderId env))) !! key = Some r.
Proof.
  intros Hkey.
  destruct (processPayment_cases env amount orderId)
    as [[_ ->]|[(r' & _ & ->)|[(r' & w' & Hmiss & _ & ->)|(e & w' & _ & ->)]]];
    simpl; try done.
  rewrite lookup_insert_ne; [done|]. congruence.
Qed.

(** The cache has no expiry and no invalidation: what is cached under a
    key stays cached under it, with the same result, whatever calls
    follow. *)
Theorem cached_results_stay env args key r :
  cache (this env) !! key = Some r ->
  cache (this (snd (processPayments args env))) !! key = Some r.
Proof.
  revert env. induction args as [|[amount orderId] rest IH]; intros env Hkey;
    [done|].
  simpl.
  pose proof (processPayment_keeps_cached env amount orderId key r Hkey)
    as Hstep.
  destruct (processPayment amount orderId env) as [r1 env1]. simpl in Hstep.
  specialize (IH env1 Hstep).
  by destruct (processPayments rest env1) as [rs env2].
Qed.

(** What the gateway throws is not cached: the same call, made again,
    goes to the gateway again. *)
Theorem gateway_failure_not_cached env amount orderId e r w1 w2 :
  userRole (this env) = "admin" ->
  cache (this env) !! (orderId +:+ "_" +:+ numberToString amount) = None ->
  realProcessor (this env) amount orderId (world env) = (Throw e, w1) ->
  realProcessor (this env) amount orderId w1 = (Return r, w2) ->
  processPayments [(amount, orderId); (amount, orderId)] env
    = ([Throw e; Return r],
       mkEnv (mkPaymentProxy
                (<[orderId +:+ "_" +:+ numberToString amount := r]>
                   (cache (this env)))
                (realProcessor (this env)) (userRole (this env)))
             w2 (calls env ++ [(amount, orderId); (amount, orderId)])).
Proof.
  intros Hrole Hmiss Hthrow Hret. simpl.
  rewrite (processPayment_gateway_throws _ _ _ _ _ Hrole Hmiss Hthrow).
  erewrite processPayment_miss; [|done|done|exact Hret].
  simpl. by rewrite <- app_assoc.
Qed.

Lemma processPayments_calls_cache env args :
  Forall (fun r => exists x, r = Return x) (fst (processPayments args env)) ->
  length (calls (snd (processPayments args env)))
    + size (cache (this env))
  = length (calls env)
    + size (cache (this (snd (processPayments args env)))).
Proof.
  revert env. induction args as [|[amount orderId] rest IH]; intros env;
    [done|].
  simpl.
  destruct (processPayment_cases env amount orderId)
    as [[_ Hstep]|[(r' & _ & Hstep)|[(r' & w' & Hmiss & _ & Hstep)
                                    |(e & w' & _ & Hstep)]]];
    rewrite Hstep; clear Hstep;
    match goal with
    | |- context [processPayments rest ?env1] =>
        specialize (IH env1);
        destruct (processPayments rest env1) as [rs env2]
    end; simpl in *; intros [Hhead Htail]%Forall_cons;
    try (destruct Hhead as [x Hx]; discriminate).
  - by apply IH.
  - specialize (IH Htail). rewrite length_app in IH. simpl in IH.
    rewrite map_size_insert_None in IH by done. lia.
Qed.

(** Starting from a new proxy, when every call returned, the gateway has
    received as many calls as the cache holds keys: one per distinct key,
    however often each was asked for. *)
Theorem gateway_called_once_per_key gw (role : string) (w : W) args :
  Forall (fun r => exists x, r = Return x)
         (fst (processPayments args (mkEnv (newPaymentProxy gw role) w []))) ->
  length (calls (snd (processPayments args
                        (mkEnv (newPaymentProxy gw role) w []))))
  = size (cache (this (snd (processPayments args
                              (mkEnv (newPaymentProxy gw role) w []))))).
Proof.
  intros Hret.
  pose proof (processPayments_calls_cache _ _ Hret) as Hcount.
  simpl in Hcount. rewrite map_size_empty in Hcount. lia.
Qed.

End ProxyCacheFacts.

Lemma cached_results_stay_witness :
  ProxyPattern.cache
    (ProxyPattern.this
       (snd (ProxyPattern.processPayments (toStr := decimal)
               [(Fin 7, "order9"); (Fin 100, "order123")]
               (ProxyPattern.mkEnv
                  (ProxyPattern.mkPaymentProxy
                     (<["order123_100" := PaymentResult.mk "old" "success"]> ∅)
                     (ProxyPattern.RealOrderProcessorPayment
                        (toStr := decimal))
                     "admin")
                  [] []))))
  !! "order123_100" = Some (PaymentResult.mk "old" "success").
Proof.
  apply (cached_results_stay (toStr := decimal)).
  apply lookup_insert_eq.
Defined.

Lemma gateway_failure_not_cached_witness :
  ProxyPattern.processPayments (toStr := decimal)
    [(Fin 100, "order123"); (Fin 100, "order123")]
    (ProxyPattern.mkEnv
       (ProxyPattern.newPaymentProxy ProxyPattern.flakyGateway "admin") [] [])
  = ([Throw (mkError "gateway down");
      Return (PaymentResult.mk "txn_order123" "success")],
     ProxyPattern.mkEnv
       (ProxyPattern.mkPaymentProxy
          (<["order123_100" := PaymentResult.mk "txn_order123" "success"]> ∅)
          ProxyPattern.flakyGateway "admin")
       ["gateway down"]
       [(Fin 100, "order123"); (Fin 100, "order123")]).
Proof.
  etrans.
  - apply (gateway_failure_not_cached (toStr := decimal)
             (ProxyPattern.mkEnv
                (ProxyPattern.newPaymentProxy ProxyPattern.flakyGateway
                   "admin") [] [])
             (Fin 100) "order123" (mkError "gateway down")
             (PaymentResult.mk "txn_order123" "success")
             ["gateway down"] ["gateway down"]).
    + reflexivity.
    + apply lookup_empty.
    + reflexivity.
    + reflexivity.
  - vm_compute. reflexivity.
Defined.

Lemma gateway_called_once_per_key_witness :
  length (ProxyPattern.calls
            (snd (ProxyPattern.processPayments (toStr := decimal)
                    [(Fin 100, "order123"); (Fin 100, "order123");
                     (Fin 7, "order9"); (Fin 100, "order123")]
                    (ProxyPattern.mkEnv (ProxyPattern.main_proxy "admin")
                                        [] []))))
  = size (ProxyPattern.cache
            (ProxyPattern.this
               (snd (ProxyPattern.processPayments (toStr := decimal)
                       [(Fin 100, "order123"); (Fin 100, "order123");
                        (Fin 7, "order9"); (Fin 100, "order123")]
                       (ProxyPattern.mkEnv (ProxyPattern.main_proxy "admin")
                                           [] []))))).
Proof.
  apply (gateway_called_once_per_key (toStr := decimal)
           (ProxyPattern.RealOrderProcessorPayment (toStr := decimal))
           "admin" []).
  vm_compute. repeat (constructor; [eexists; reflexivity|]). constructor.
Defined.

(** ** Proxy: the cache in front of the real processor *)

Lemma append_nil_l (s : string) : "" +:+ s = s.
Proof. reflexivity. Qed.

Lemma append_cons (c : ascii) (x y : string) :
  String c x +:+ y = String c (x +:+ y).
Proof. reflexivity. Qed.

Lemma underscore_free_after_underscore (x y : string) :
  underscore_free (x +:+ String "_" y) = false.
Proof.
  induction x as [|c x IH];
    repeat (rewrite append_nil_l || rewrite append_cons); simpl; [done|].
  rewrite IH. apply andb_false_r.
Qed.

(** The key tells the order identifier: the amount's digits hold no
    underscore, so the identifier is what stands before the last one. *)
Lemma cacheKey_orderId (o1 o2 s1 s2 : string) :
  underscore_free s1 = true -> underscore_free s2 = true ->
  o1 +:+ "_" +:+ s1 = o2 +:+ "_" +:+ s2 -> o1 = o2.
Proof.
  intros Hs1 Hs2. revert o2.
  induction o1 as [|c o1 IH]; intros [|d o2] Heq;
    repeat (rewrite append_nil_l in Heq || rewrite append_cons in Heq).
  - done.
  - injection Heq as _ Heq. rewrite Heq in Hs1.
    by rewrite underscore_free_after_underscore in Hs1.
  - injection Heq as _ Heq. rewrite <- Heq in Hs2.
    by rewrite underscore_free_after_underscore in Hs2.
  - injection Heq as -> Heq. f_equal. by apply IH.
Qed.

Section RealProcessorFacts.
Import ProxyPattern.
Context {toStr : NumberToString} {W : Type} {con : Console W}.
Implicit Types (env : Env (W := W)) (args : list (number * string)).

Lemma processPayment_real env amount orderId :
  userRole (this env) = "admin" ->
  realProcessor (this env) = RealOrderProcessorPayment ->
  (forall key r,
     cache (this env) !! key = Some r ->
     exists a o,
       key = o +:+ "_" +:+ numberToString a
       /\ underscore_free (numberToString a) = true
       /\ r = PaymentResult.mk ("txn_" +:+ o) "success") ->
  underscore_free (numberToString amount) = true ->
  fst (processPayment amount orderId env)
    = Return (PaymentResult.mk ("txn_" +:+ orderId) "success")
  /\ userRole (this (snd (processPayment amount orderId env))) = "admin"
  /\ realProcessor (this (snd (processPayment amount orderId env)))
     = RealOrderProcessorPayment
  /\ (forall key r,
       cache (this (snd (processPayment amount orderId env))) !! key = Some r ->
       exists a o,
         key = o +:+ "_" +:+ numberToString a
         /\ underscore_free (numberToString a) = true
         /\ r = PaymentResult.mk ("txn_" +:+ o) "success").
Proof.
  intros Hrole Hreal Hinv Hamount.
  destruct (processPayment_cases env amount orderId)
    as [[Hno _]|[(r & Hhit & ->)|[(r & w' & Hmiss & Hgw & ->)
                                 |(e & w' & Hmiss & Hstep)]]]; simpl.
  - done.
  - destruct (Hinv _ _ Hhit) as (a & o & Hkey & Ha & ->).
    by rewrite (cacheKey_orderId _ _ _ _ Hamount Ha Hkey).
  - rewrite Hreal in Hgw. injection Hgw as <- _.
    split; [done|]. split; [done|]. split; [done|].
    intros key r [[<- <-]|[_ Hold]]%lookup_insert_Some; [|by apply Hinv].
    by exists amount, orderId.
  - exfalso.
    assert (exists r w1,
              processPayment amount orderId env
              = (Return r, mkEnv (mkPaymentProxy
                   (<[orderId +:+ "_" +:+ numberToString amount := r]>
                      (cache (this env)))
                   (realProcessor (this env)) (userRole (this env)))
                 w1 (calls env ++ [(amount, orderId)]))) as (r & w1 & Hret).
    { eexists _, _. apply processPayment_miss; [done|done|].
      rewrite Hreal. reflexivity. }
    congruence.
Qed.

(** In front of the real processor the cache cannot be told from the
    processor: whatever calls were made before, an administrator's call
    returns the transaction of its own order, fresh or cached, as long as
    the digits of the amounts hold no underscore. *)
Theorem cache_transparent_for_real_processor (w : W) args :
  Forall (fun p => underscore_free (numberToString (fst p)) = true) args ->
  fst (processPayments args
         (mkEnv (newPaymentProxy RealOrderProcessorPayment "admin") w []))
  = map (fun p => Return (PaymentResult.mk ("txn_" +:+ snd p) "success")) args.
Proof.
  intros Hargs.
  assert (forall env,
            userRole (this env) = "admin" ->
            realProcessor (this env) = RealOrderProcessorPayment ->
            (forall key r,
               cache (this env) !! key = Some r ->
               exists a o,
                 key = o +:+ "_" +:+ numberToString a
                 /\ underscore_free (numberToString a) = true
                 /\ r = PaymentResult.mk ("txn_" +:+ o) "success") ->
            fst (processPayments args env)
            = map (fun p =>
                     Return (PaymentResult.mk ("txn_" +:+ snd p) "success"))
                  args) as Hgen.
  { induction Hargs as [|[amount orderId] rest Hamount _ IH];
      intros env Hrole Hreal Hinv; [done|].
    simpl in *.
    destruct (processPayment_real env amount orderId Hrole Hreal Hinv Hamount)
      as (Hfst & Hrole' & Hreal' & Hinv').
    destruct (processPayment amount orderId env) as [r env1]. simpl in *.
    specialize (IH env1 Hrole' Hreal' Hinv').
    destruct (processPayments rest env1) as [rs env2]. simpl in *.
    by rewrite Hfst, IH. }
  apply Hgen; [done|done|]. intros key r Hkey. simpl in Hkey.
  by rewrite lookup_empty in Hkey.
Qed.

End RealProcessorFacts.

Lemma cache_transparent_for_real_processor_witness :
  fst (ProxyPattern.processPayments (toStr := decimal)
         [(Fin 100, "order_1"); (Fin 7, "order"); (Fin 100, "order_1")]
         (ProxyPattern.mkEnv (ProxyPattern.main_proxy "admin") [] []))
  = [Return (PaymentResult.mk "txn_order_1" "success");
     Return (PaymentResult.mk "txn_order" "success");
     Return (PaymentResult.mk "txn_order_1" "success")].
Proof.
  apply (cache_transparent_for_real_processor (toStr := decimal) []
           [(Fin 100, "order_1"); (Fin 7, "order"); (Fin 100, "order_1")]).
  repeat constructor.
Defined.

(** ** Facade: failures and the services of the example *)

Section FacadeFailureFacts.
Import OrderModel FacadePattern.
Context {W : Type}.
Implicit Types (f : OrderFacade (W := W)) (o : Order) (w : W).

Lemma process_throws f who o w tr e w' :
  service f who (id o) (amount o) w = (Throw e, w') ->
  process f who (mkEnv o w tr)
    = (Throw e, mkEnv o w' (tr ++ [mkCall who (id o) (amount o)])).
Proof. intros Hcall. unfold process. simpl. by rewrite Hcall. Qed.

(** What a service throws ends [processOrder] there and then: the error is
    the one the caller gets, the order is as it was (not completed), and
    the services after the failing one have not been called. The world is
    what the calls made so far left. *)
Theorem processOrder_failure_propagates f o w tr :
  (forall e w1,
     paymentService f (id o) (amount o) w = (Throw e, w1) ->
     processOrder f (mkEnv o w tr)
     = (Throw e, mkEnv o w1 (tr ++ [mkCall payment (id o) (amount o)])))
  /\ (forall t w1 e w2,
     paymentService f (id o) (amount o) w = (Return t, w1) ->
     inventoryService f (id o) (amount o) w1 = (Throw e, w2) ->
     processOrder f (mkEnv o w tr)
     = (Throw e,
        mkEnv o w2 (tr ++ [mkCall payment (id o) (amount o);
                           mkCall inventory (id o) (amount o)])))
  /\ (forall t w1 i w2 e w3,
     paymentService f (id o) (amount o) w = (Return t, w1) ->
     inventoryService f (id o) (amount o) w1 = (Return i, w2) ->
     shippingService f (id o) (amount o) w2 = (Throw e, w3) ->
     processOrder f (mkEnv o w tr)
     = (Throw e,
        mkEnv o w3 (tr ++ [mkCall payment (id o) (amount o);
                           mkCall inventory (id o) (amount o);
                           mkCall shipping (id o) (amount o)]))).
Proof.
  split; [|split].
  - intros e w1 Hpay. unfold processOrder.
    by rewrite (Eff_bind_throw _ _ _ _ _
                  (process_throws f payment o w tr e w1 Hpay)).
  - intros t w1 e w2 Hpay Hinv. unfold processOrder.
    rewrite (Eff_bind_return _ _ _ _ _
               (process_returns f payment o w tr t w1 Hpay)).
    rewrite (Eff_bind_throw _ _ _ _ _
               (process_throws f inventory o w1 _ e w2 Hinv)).
    by rewrite <- app_assoc.
  - intros t w1 i w2 e w3 Hpay Hinv Hship. unfold processOrder.
    rewrite (Eff_bind_return _ _ _ _ _
               (process_returns f payment o w tr t w1 Hpay)).
    rewrite (Eff_bind_return _ _ _ _ _
               (process_returns f inventory o w1 _ i w2 Hinv)).
    rewrite (Eff_bind_throw _ _ _ _ _
               (process_throws f shipping o w2 _ e w3 Hship)).
    by rewrite <- !app_assoc.
Qed.

End FacadeFailureFacts.

Lemma processOrder_failure_propagates_witness :
  FacadePattern.processOrder
    (FacadePattern.newOrderFacade
       (FacadePattern.ShippingService (toStr := decimal))
       (FacadePattern.PaymentService (toStr := decimal))
       (FacadePattern.failingService "out of stock"))
    (FacadePattern.mkEnv (OrderModel.mkOrder "12345" (Fin 100) "pending")
                         [] [])
  = (Throw (mkError "out of stock"),
     FacadePattern.mkEnv (OrderModel.mkOrder "12345" (Fin 100) "pending")
       ["Processing payment for order ID: 12345 with value: 100";
        "Failing for order ID: 12345"]
       [FacadePattern.mkCall FacadePattern.payment "12345" (Fin 100);
        FacadePattern.mkCall FacadePattern.inventory "12345" (Fin 100)]).
Proof.
  apply (proj1 (proj2 (processOrder_failure_propagates
                         (FacadePattern.newOrderFacade
                            (FacadePattern.ShippingService (toStr := decimal))
                            (FacadePattern.PaymentService (toStr := decimal))
                            (FacadePattern.failingService "out of stock"))
                         (OrderModel.mkOrder "12345" (Fin 100) "pending")
                         [] []))
           "payment-processed"
           ["Processing payment for order ID: 12345 with value: 100"]);
    vm_compute; reflexivity.
Defined.


Section FacadeServicesFacts.
Import OrderModel FacadePattern.
Context {toStr : NumberToString} {W : Type} {con : Console W}.

(** The three services of the example never throw: behind a facade built
    as [index.ts] builds it, every order is completed, whatever its amount
    and its status, the result carries the tag of the payment service, and
    the console receives the payment line, the inventory line and the
    shipping line, in this order. *)
Theorem stock_services_always_complete (o : Order) (w : W)
    (tr : list Call) :
  processOrder
    (newOrderFacade ShippingService PaymentService InventoryService)
    (mkEnv o w tr)
  = (Return (PaymentResult.mk "payment-processed" "completed"),
     mkEnv (mkOrder (id o) (amount o) "completed")
       (console_log
          ("Processing shipping for order ID: " +:+ id o
           +:+ " with value: " +:+ numberToString (amount o))
          (console_log
             ("Processing inventory for order ID: " +:+ id o
              +:+ " with value: " +:+ numberToString (amount o))
             (console_log
                ("Processing payment for order ID: " +:+ id o
                 +:+ " with value: " +:+ numberToString (amount o)) w)))
       (tr ++ [mkCall payment (id o) (amount o);
               mkCall inventory (id o) (amount o);
               mkCall shipping (id o) (amount o)])).
Proof.
  unfold processOrder, mbind, Eff_bind, process. simpl.
  by rewrite <- !app_assoc.
Qed.

End FacadeServicesFacts.

(** ** Observer: registrations *)

Section ObserverRegistrationFacts.
Import ObserverPattern.
Context {Observer : Type} `{EqDecision Observer} {W : Type}.
Implicit Types (env : Env (Observer := Observer) (W := W))
               (l : list Observer) (x y : Observer).

Lemma registrations_app l1 l2 y :
  registrations y (l1 ++ l2) = registrations y l1 + registrations y l2.
Proof. unfold registrations. by rewrite filter_app, length_app. Qed.

Lemma registrations_cons x l y :
  registrations y (x :: l)
  = (if decide (x = y) then 1 else 0) + registrations y l.
Proof.
  unfold registrations. destruct (decide (x = y)) as [Heq|Hne].
  - by rewrite filter_cons_True.
  - by rewrite filter_cons_False.
Qed.

Lemma registrations_absent l y : y ∉ l -> registrations y l = 0.
Proof.
  induction l as [|x l IH]; [done|].
  intros [Hne Hl]%not_elem_of_cons. rewrite registrations_cons, IH by done.
  by rewrite decide_False by congruence.
Qed.

(** Registrations are counted: [addObserver x] adds one registration of
    [x], duplicates included, and [removeObserver x] takes one away when
    there is one; neither touches the registrations of another observer. *)
Theorem registrations_accounting env x y :
  registrations y (observers (this (snd (addObserver x env))))
  = registrations y (observers (this env))
    + (if decide (x = y) then 1 else 0)
  /\ registrations y (observers (this (snd (removeObserver x env))))
     = registrations y (observers (this env))
       - (if decide (x = y) then 1 else 0).
Proof.
  split.
  - simpl. rewrite registrations_app, registrations_cons.
    change (registrations y []) with 0.
    destruct (decide (x = y)); lia.
  - destruct (removeObserver_spec env x)
      as [[Hnot ->]|(pre & post & Hl & Hpre & ->)].
    + destruct (decide (x = y)) as [<-|Hne]; [|lia].
      rewrite (registrations_absent _ _ Hnot). lia.
    + simpl. rewrite Hl, !registrations_app, registrations_cons.
      destruct (decide (x = y)); lia.
Qed.

(** Adding an observer and removing it again gives the subject back when
    the observer was not registered before. When it was, the removal takes
    the older registration: the outcome is that of removing first and
    adding afterwards, with the observer now last in line. *)
Theorem add_then_remove env x :
  (x ∉ observers (this env) ->
     snd (removeObserver x (snd (addObserver x env))) = env)
  /\ (x ∈ observers (this env) ->
     snd (removeObserver x (snd (addObserver x env)))
     = snd (addObserver x (snd (removeObserver x env)))).
Proof.
  split.
  - intros Hnot.
    destruct (removeObserver_spec (snd (addObserver x env)) x)
      as [[Hno _]|(pre & post & Hl & Hpre & ->)]; simpl in *.
    + exfalso. apply Hno, elem_of_app. right. by apply list_elem_of_singleton.
    + assert (pre = observers (this env) /\ post = []) as [-> ->].
      { destruct post as [|z post] using rev_ind.
        - by apply app_inj_tail in Hl as [-> _].
        - rewrite app_comm_cons, app_assoc in Hl.
          apply app_inj_tail in Hl as [Hl _]. exfalso.
          apply Hnot. rewrite Hl. apply elem_of_app. right. by left. }
      rewrite app_nil_r. by destruct env as [[] ? ?].
  - intros Hin.
    destruct (removeObserver_spec env x)
      as [[Hnot _]|(pre & post & Hl & Hpre & ->)]; [done|].
    destruct (removeObserver_spec (snd (addObserver x env)) x)
      as [[Hno _]|(pre' & post' & Hl' & Hpre' & ->)]; simpl in *.
    + exfalso. apply Hno, elem_of_app. by left.
    + rewrite Hl, <- app_assoc in Hl'. simpl in Hl'.
      assert (pre' = pre /\ post' = post ++ [x]) as [-> ->]; [|by rewrite app_assoc].
      clear -Hl' Hpre Hpre'. revert pre' Hl' Hpre'.
      induction pre as [|a pre IH]; intros [|b pre'] Hl' Hpre'; simpl in *.
      * by injection Hl' as <-.
      * injection Hl' as <- _. exfalso. apply Hpre'. by left.
      * injection Hl' as -> _. exfalso. apply Hpre. by left.
      * injection Hl' as <- Hl'.
        apply not_elem_of_cons in Hpre as [_ Hpre].
        apply not_elem_of_cons in Hpre' as [_ Hpre'].
        by destruct (IH Hpre pre' Hl' Hpre') as [-> ->].
Qed.

End ObserverRegistrationFacts.

Lemma add_then_remove_witness :
  snd (ObserverPattern.removeObserver ObserverPattern.smsNotifier
         (snd (ObserverPattern.addObserver ObserverPattern.smsNotifier
                 (ObserverPattern.addObservers
                    [ObserverPattern.emailNotifier]
                    ObserverPattern.main_env))))
  = ObserverPattern.addObservers [ObserverPattern.emailNotifier]
      ObserverPattern.main_env
  /\ ObserverPattern.observers
       (ObserverPattern.this
          (snd (ObserverPattern.removeObserver ObserverPattern.smsNotifier
                  (snd (ObserverPattern.addObserver
                          ObserverPattern.smsNotifier
                          (ObserverPattern.addObservers
                             [ObserverPattern.smsNotifier;
                              ObserverPattern.emailNotifier]
                             ObserverPattern.main_env))))))
     = [ObserverPattern.emailNotifier; ObserverPattern.smsNotifier].
Proof.
  split.
  - apply (add_then_remove
             (ObserverPattern.addObservers [ObserverPattern.emailNotifier]
                ObserverPattern.main_env)
             ObserverPattern.smsNotifier).
    vm_compute. intros Hin. apply list_elem_of_In in Hin.
    destruct Hin as [Heq|[]]. discriminate.
  - etrans.
    + apply (f_equal (fun env => ObserverPattern.observers
                                   (ObserverPattern.this env))).
      apply (add_then_remove
               (ObserverPattern.addObservers
                  [ObserverPattern.smsNotifier; ObserverPattern.emailNotifier]
                  ObserverPattern.main_env)
               ObserverPattern.smsNotifier).
      vm_compute. apply list_elem_of_In. by left.
    + vm_compute. reflexivity.
Defined.

(** ** Observer: the notifiers of the example *)

Section NotifierFacts.
Import ObserverPattern.
Implicit Types (env : Env (Observer := Notifier * nat) (W := list string))
               (l : list (Notifier * nat)).

Lemma notifier_update_prints (o : Notifier * nat) (s : string)
    (w : list string) :
  notifier_update o s w = (Return tt, w ++ [notification o s]).
Proof. by destruct o as [[] n]. Qed.

Lemma notify_each_notifiers l env :
  notify_each notifier_update l env
  = (Return tt,
     mkEnv (this env)
           (world env
            ++ map (fun o => notification o (status (order (this env)))) l)
           (updates env
            ++ map (fun o => (o, status (order (this env)))) l)).
Proof.
  revert env. induction l as [|o rest IH]; intros env.
  - simpl. rewrite !app_nil_r. by destruct env.
  - simpl. unfold mbind, Eff_bind, call_update.
    rewrite notifier_update_prints, IH. simpl.
    by rewrite <- !app_assoc.
Qed.

(** The e-mail and SMS notifiers never throw: with them as observers,
    [setStatus] always returns, has called every registration, and has
    printed one line for each, in registration order. *)
Theorem notifiers_all_reached env (s : string) :
  setStatus notifier_update s env
  = (Return tt,
     mkEnv (mkOrderSubject (observers (this env))
              (mkOrder (id (order (this env))) (amount (order (this env))) s))
           (world env ++ map (fun o => notification o s) (observers (this env)))
           (updates env ++ map (fun o => (o, s)) (observers (this env)))).
Proof. rewrite setStatus_unfold. by rewrite notify_each_notifiers. Qed.

End NotifierFacts.

(** ** Template method: the outcome of a payment *)

Section TemplateStepsFacts.
Import OrderModel TemplateMethodPattern.
Context {W : Type} {template : PaymentTemplate (W := W)}.
Implicit Types (o : Order) (w : W) (tr : list Step).

(** Past the validation, [processPayment] prepares, executes and completes,
    in this order, and returns what [executePayment] returned. What
    [preparePayment] or [executePayment] throws ends it there and then: the
    error is the one the caller gets, the order is as it was (not
    completed), and the steps after the failing one have not run. *)
Theorem processPayment_steps o w tr :
  js_le (amount o) zero = false ->
  (forall e w1,
     preparePayment (amount o) w = (Throw e, w1) ->
     processPayment (mkEnv o w tr)
     = (Throw e, mkEnv o w1 (tr ++ [prepared (amount o)])))
  /\ (forall details w1 e w2,
     preparePayment (amount o) w = (Return details, w1) ->
     executePayment details w1 = (Throw e, w2) ->
     processPayment (mkEnv o w tr)
     = (Throw e,
        mkEnv o w2 (tr ++ [prepared (amount o); executed details])))
  /\ (forall details w1 r w2,
     preparePayment (amount o) w = (Return details, w1) ->
     executePayment details w1 = (Return r, w2) ->
     processPayment (mkEnv o w tr)
     = (Return r,
        mkEnv (mkOrder (id o) (amount o) "completed") w2
              (tr ++ [prepared (amount o); executed details; completed]))).
Proof.
  intros Hamount.
  assert (forall A (k : Eff Env A),
            (validateOrder;; k) (mkEnv o w tr) = k (mkEnv o w tr)) as Hvalid.
  { intros A k. unfold validateOrder, mbind, Eff_bind, gets. simpl.
    by rewrite Hamount. }
  unfold processPayment. rewrite Hvalid.
  unfold mbind at 1, Eff_bind at 1, gets at 1. simpl.
  split; [|split].
  - intros e w1 Hprep. unfold mbind, Eff_bind, step. simpl.
    by rewrite Hprep.
  - intros details w1 e w2 Hprep Hexec.
    unfold mbind, Eff_bind, step. simpl. rewrite Hprep. simpl.
    rewrite Hexec. simpl. by rewrite <- app_assoc.
  - intros details w1 r w2 Hprep Hexec.
    unfold mbind, Eff_bind, step, updateOrderStatus. simpl.
    rewrite Hprep. simpl. rewrite Hexec. simpl. by rewrite <- !app_assoc.
Qed.

End TemplateStepsFacts.

Lemma processPayment_steps_witness :
  TemplateMethodPattern.processPayment
    (template := TemplateMethodPattern.DecliningPayment)
    (TemplateMethodPattern.mkEnv
       (OrderModel.mkOrder "order123" (Fin 100) "pending")
       (TemplateMethodPattern.mkRuntime 42 []) [])
  = (Throw (mkError "Payment declined"),
     TemplateMethodPattern.mkEnv
       (OrderModel.mkOrder "order123" (Fin 100) "pending")
       (TemplateMethodPattern.mkRuntime 42 ["Payment declined"])
       [TemplateMethodPattern.prepared (Fin 100);
        TemplateMethodPattern.executed
          (TemplateMethodPattern.PaymentDetails.mk (Fin 100) "credit")]).
Proof.
  apply (proj1 (proj2 (processPayment_steps
                         (template := TemplateMethodPattern.DecliningPayment)
                         (OrderModel.mkOrder "order123" (Fin 100) "pending")
                         (TemplateMethodPattern.mkRuntime 42 []) []
                         eq_refl))
           (TemplateMethodPattern.PaymentDetails.mk (Fin 100) "credit")
           (TemplateMethodPattern.mkRuntime 42 []));
    reflexivity.
Defined.


Section CreditPaymentFacts.
Import OrderModel TemplateMethodPattern.
Context {toStr : NumberToString}.

(** A credit payment goes through whenever the amount is not zero or
    below, also for an order that is completed already and for the amount
    NaN, which the comparison lets pass: the transaction carries the
    clock's time, one line is printed, and the order is completed. *)
Theorem credit_payment_succeeds (o : Order) (rt : Runtime)
    (tr : list Step) :
  js_le (amount o) zero = false ->
  processPayment (template := CreditPayment) (mkEnv o rt tr)
  = (Return (PaymentResult.mk ("txn-" +:+ pretty (now rt)) "success"),
     mkEnv (mkOrder (id o) (amount o) "completed")
       (mkRuntime (now rt)
          (console rt
           ++ ["Processing credit payment of " +:+ numberToString (amount o)
               +:+ " using " +:+ "credit"]))
       (tr ++ [prepared (amount o);
               executed (PaymentDetails.mk (amount o) "credit");
               completed])).
Proof.
  intros Hamount.
  unfold processPayment, validateOrder, mbind, Eff_bind, gets, step,
    updateOrderStatus.
  simpl. rewrite Hamount. simpl. by rewrite <- !app_assoc.
Qed.

End CreditPaymentFacts.

Lemma credit_payment_succeeds_witness :
  TemplateMethodPattern.processPayment
    (template := TemplateMethodPattern.CreditPayment (toStr := decimal))
    (TemplateMethodPattern.mkEnv
       (OrderModel.mkOrder "order123" NaN "completed")
       (TemplateMethodPattern.mkRuntime 42 []) [])
  = (Return (PaymentResult.mk "txn-42" "success"),
     TemplateMethodPattern.mkEnv
       (OrderModel.mkOrder "order123" NaN "completed")
       (TemplateMethodPattern.mkRuntime 42
          ["Processing credit payment of NaN using credit"])
       [TemplateMethodPattern.prepared NaN;
        TemplateMethodPattern.executed
          (TemplateMethodPattern.PaymentDetails.mk NaN "credit");
        TemplateMethodPattern.completed]).
Proof.
  etrans.
  - apply (credit_payment_succeeds (toStr := decimal)
             (OrderModel.mkOrder "order123" NaN "completed")
             (TemplateMethodPattern.mkRuntime 42 []) []).
    reflexivity.
  - vm_compute. reflexivity.
Defined.

(** ** Singleton: the instance, and writing the configuration *)

Section SingletonMoreFacts.
Import SingletonPattern.
Implicit Types (w : World) (l : loc) (c : Config.t).

Lemma alloc_keeps c w l c0 :
  heap w !! l = Some c0 -> heap (snd (alloc c w)) !! l = Some c0.
Proof.
  intros Hl. destruct (alloc_spec c w) as (l' & -> & Hfresh). simpl.
  rewrite lookup_insert_ne; [done|]. congruence.
Qed.

(** [getInstance] never throws and creates the manager once: a second call
    returns the same manager and changes nothing. Creating it touches no
    record that existed, and the manager it creates holds the default
    configuration. *)
Theorem getInstance_once w :
  exists m w1,
    getInstance w = (Return m, w1)
    /\ getInstance w1 = (Return m, w1)
    /\ (forall l c, heap w !! l = Some c -> heap w1 !! l = Some c)
    /\ match instance w with
       | Some m0 => m = m0 /\ w1 = w
       | None =>
           heap w !! config m = None
           /\ heap w1 !! config m
              = Some (Config.mk "default-key" (Fin 3000))
       end.
Proof.
  destruct (instance w) as [m0|] eqn:Hinst.
  - exists m0, w. rewrite (getInstance_created _ _ Hinst). by repeat split.
  - destruct (alloc_spec (Config.mk "" zero) w) as (l1 & Ha1 & Hl1).
    destruct (alloc_spec (Config.mk "default-key" (Fin 3000))
                (mkWorld (<[l1 := Config.mk "" zero]> (heap w)) (instance w)))
      as (l2 & Ha2 & Hl2).
    simpl in Hl2. apply lookup_insert_None in Hl2 as [Hl2 Hne].
    exists (mkConfigManager l2),
      (mkWorld (<[l2 := Config.mk "default-key" (Fin 3000)]>
                  (<[l1 := Config.mk "" zero]> (heap w)))
               (Some (mkConfigManager l2))).
    assert (getInstance w
            = (Return (mkConfigManager l2),
               mkWorld (<[l2 := Config.mk "default-key" (Fin 3000)]>
                          (<[l1 := Config.mk "" zero]> (heap w)))
                       (Some (mkConfigManager l2)))) as Hget.
    { unfold getInstance, newConfigManager.
      unfold mbind at 1, Eff_bind at 1, gets at 1. rewrite Hinst.
      unfold mbind at 1 2 3, Eff_bind at 1 2 3.
      rewrite Ha1. unfold mbind at 1, Eff_bind at 1. by rewrite Ha2. }
    split; [done|]. split; [by apply getInstance_created|]. split.
    + intros l c Hl. simpl.
      rewrite !lookup_insert_ne; [done|congruence|congruence].
    + simpl. split; [done|]. by rewrite lookup_insert_eq.
Qed.

Lemma injected_new_default w :
  exists l,
    Injected.new None w
    = (Return (Injected.mkConfigManagerInjected l),
       mkWorld (<[l := Config.mk "default-key" zero]> (heap w)) (instance w))
    /\ heap w !! l = None.
Proof.
  destruct (alloc_spec (Config.mk "default-key" zero) w) as (l & Ha & Hl).
  exists l. split; [|done].
  unfold Injected.new. by rewrite (Eff_bind_return _ _ _ _ _ Ha).
Qed.

Lemma write_both l (k : string) (t : number) w c :
  heap w !! l = Some c ->
  (set_apiKey l k;; set_timeout l t) w
  = (Return tt, mkWorld (<[l := Config.mk k t]> (heap w)) (instance w)).
Proof.
  intros Hl. unfold set_apiKey, set_timeout, mbind, Eff_bind, modify.
  rewrite (read_spec _ _ _ Hl). simpl.
  unfold read. simpl. rewrite lookup_insert_eq. simpl.
  by rewrite insert_insert_eq.
Qed.

(** [setConfig] then [getConfig], in either class: the record handed out
    carries exactly the two values just set, and so does the stored one;
    nothing of the previous configuration is left. *)
Theorem setConfig_getConfig :
  (forall (m : ConfigManager) w c (k : string) (t : number),
     heap w !! config m = Some c ->
     exists l w',
       (setConfig m k t;; getConfig m) w = (Return l, w')
       /\ heap w' !! l = Some (Config.mk k t)
       /\ heap w' !! config m = Some (Config.mk k t)
       /\ l ≠ config m)
  /\ (forall (m : Injected.ConfigManagerInjected) w c (k : string)
        (t : number),
     heap w !! Injected.config m = Some c ->
     exists l w',
       (Injected.setConfig m k t;; Injected.getConfig m) w = (Return l, w')
       /\ heap w' !! l = Some (Config.mk k t)
       /\ heap w' !! Injected.config m = Some (Config.mk k t)
       /\ l ≠ Injected.config m).
Proof.
  assert (forall l0 w c (k : string) (t : number),
            heap w !! l0 = Some c ->
            exists l w',
              ((set_apiKey l0 k;; set_timeout l0 t);;
               x ← read l0; alloc x) w = (Return l, w')
              /\ heap w' !! l = Some (Config.mk k t)
              /\ heap w' !! l0 = Some (Config.mk k t)
              /\ l ≠ l0) as Hboth.
  { intros l0 w c k t Hl0. unfold mbind at 1, Eff_bind at 1.
    rewrite (write_both _ _ _ _ _ Hl0).
    destruct (spread_copy l0
                (mkWorld (<[l0 := Config.mk k t]> (heap w)) (instance w))
                (Config.mk k t)) as (l & -> & Hfresh).
    { simpl. apply lookup_insert_eq. }
    simpl in Hfresh. apply lookup_insert_None in Hfresh as [_ Hne].
    eexists _, _. split; [done|]. simpl.
    rewrite lookup_insert_eq, lookup_insert_ne, lookup_insert_eq by done.
    by repeat split. }
  split; intros m w c k t Hc; by apply (Hboth _ _ c).
Qed.

(** Injected managers are independent exactly as far as the objects they
    were built on are different: [setConfig] on one leaves the record of a
    manager with another record alone; two managers built on the same
    object see each other's [setConfig]; two managers built without an
    object each get a record of their own. *)
Theorem injected_managers_and_their_objects :
  (forall (m1 m2 : Injected.ConfigManagerInjected) w (k : string)
     (t : number),
     Injected.config m1 ≠ Injected.config m2 ->
     heap (snd (Injected.setConfig m1 k t w)) !! Injected.config m2
     = heap w !! Injected.config m2)
  /\ (forall l w c (k : string) (t : number),
     heap w !! l = Some c ->
     fst ((m1 ← Injected.new (Some l);
           m2 ← Injected.new (Some l);
           Injected.setConfig m1 k t;;
           l' ← Injected.getConfig m2;
           read l') w)
     = Return (Config.mk k t))
  /\ (forall w (k : string) (t : number),
     fst ((m1 ← Injected.new None;
           m2 ← Injected.new None;
           Injected.setConfig m1 k t;;
           l' ← Injected.getConfig m2;
           read l') w)
     = Return (Config.mk "default-key" zero)).
Proof.
  split; [|split].
  - intros m1 m2 w k t Hne.
    unfold Injected.setConfig, mbind, Eff_bind.
    destruct (set_apiKey_frame (Injected.config m1) k w
                (Injected.config m2) Hne) as [Hheap _].
    destruct (set_apiKey (Injected.config m1) k w) as [[[]|e] w1];
      simpl in *; [|done].
    destruct (set_timeout_frame (Injected.config m1) t w1
                (Injected.config m2) Hne) as [Hheap' _].
    congruence.
  - intros l w c k t Hl.
    unfold Injected.new, Injected.setConfig, Injected.getConfig.
    unfold mbind at 1 2 3, Eff_bind at 1 2 3. simpl.
    rewrite (write_both _ _ _ _ _ Hl).
    unfold mbind at 1, Eff_bind at 1.
    destruct (spread_copy l
                (mkWorld (<[l := Config.mk k t]> (heap w)) (instance w))
                (Config.mk k t)) as (l' & -> & Hfresh).
    { simpl. apply lookup_insert_eq. }
    unfold read. simpl. by rewrite lookup_insert_eq.
  - intros w k t.
    destruct (injected_new_default w) as (l1 & Hn1 & Hl1).
    destruct (injected_new_default
                (mkWorld (<[l1 := Config.mk "default-key" zero]> (heap w))
                         (instance w))) as (l2 & Hn2 & Hl2).
    simpl in Hl2. apply lookup_insert_None in Hl2 as [Hl2 Hne].
    rewrite (Eff_bind_return _ _ _ _ _ Hn1), (Eff_bind_return _ _ _ _ _ Hn2).
    unfold Injected.setConfig, Injected.getConfig. simpl.
    erewrite Eff_bind_return; cycle 1.
    { eapply write_both. simpl. rewrite lookup_insert_ne by done.
      apply lookup_insert_eq. }
    destruct (spread_copy l2
                (mkWorld
                   (<[l1 := Config.mk k t]>
                      (<[l2 := Config.mk "default-key" zero]>
                         (<[l1 := Config.mk "default-key" zero]> (heap w))))
                   (instance w))
                (Config.mk "default-key" zero)) as (l' & Hcopy & Hfresh).
    { simpl. rewrite lookup_insert_ne by done. apply lookup_insert_eq. }
    rewrite (Eff_bind_return _ _ _ _ _ Hcopy).
    unfold read. simpl. by rewrite lookup_insert_eq.
Qed.

End SingletonMoreFacts.

Lemma setConfig_getConfig_witness :
  exists l w',
    (SingletonPattern.setConfig (SingletonPattern.mkConfigManager 2%positive)
       "new-api-key" (Fin 10000);;
     SingletonPattern.getConfig (SingletonPattern.mkConfigManager 2%positive))
      (SingletonPattern.world SingletonPattern.singleton_client)
    = (Return l, w')
    /\ SingletonPattern.heap w' !! l
       = Some (SingletonPattern.Config.mk "new-api-key" (Fin 10000))
    /\ SingletonPattern.heap w' !! 2%positive
       = Some (SingletonPattern.Config.mk "new-api-key" (Fin 10000))
    /\ l ≠ 2%positive.
Proof.
  apply (proj1 setConfig_getConfig
           (SingletonPattern.mkConfigManager 2%positive)
           (SingletonPattern.world SingletonPattern.singleton_client)
           (SingletonPattern.Config.mk "default-key" (Fin 3000))).
  vm_compute. reflexivity.
Defined.

Lemma injected_managers_and_their_objects_witness :
  SingletonPattern.heap
    (snd (SingletonPattern.Injected.setConfig
            (SingletonPattern.Injected.mkConfigManagerInjected 5%positive)
            "other" (Fin 1)
            (SingletonPattern.world SingletonPattern.injected_client)))
  !! SingletonPattern.Injected.config SingletonPattern.injected_manager
  = SingletonPattern.heap
      (SingletonPattern.world SingletonPattern.injected_client)
    !! SingletonPattern.Injected.config SingletonPattern.injected_manager
  /\ fst ((m1 ← SingletonPattern.Injected.new
                  (Some SingletonPattern.injected_literal);
           m2 ← SingletonPattern.Injected.new
                  (Some SingletonPattern.injected_literal);
           SingletonPattern.Injected.setConfig m1 "new-injected-key"
             (Fin 20000);;
           l' ← SingletonPattern.Injected.getConfig m2;
           SingletonPattern.read l')
            (SingletonPattern.world SingletonPattern.injected_client))
     = Return (SingletonPattern.Config.mk "new-injected-key" (Fin 20000)).
Proof.
  destruct injected_managers_and_their_objects as (Hapart & Hshared & _).
  split.
  - apply (Hapart
             (SingletonPattern.Injected.mkConfigManagerInjected 5%positive)
             SingletonPattern.injected_manager).
    vm_compute. discriminate.
  - apply (Hshared SingletonPattern.injected_literal
             (SingletonPattern.world SingletonPattern.injected_client)
             (SingletonPattern.Config.mk "injected-key" (Fin 10000))).
    vm_compute. reflexivity.
Defined.

(** ** Orders: what the constructors accept *)

Lemma js_lt_zero_iff (a : number) : js_lt a zero = true <-> negative a.
Proof.
  split; [|apply js_lt_zero_negative].
  destruct a as [| | |q]; simpl; try done.
  intros Hlt. apply Qnot_le_lt. intros Hle.
  apply Qle_bool_iff in Hle. by rewrite Hle in Hlt.
Qed.

Lemma js_le_zero_iff (a : number) : js_le a zero = true <-> nonpositive a.
Proof.
  split; [|apply js_le_zero_nonpositive].
  destruct a as [| | |q]; simpl; try done.
  intros Hle. apply Qle_bool_iff. by destruct (Qle_bool q 0).
Qed.

Lemma truthy_string_iff (id : option string) :
  truthy_string id = true <-> exists s, id = Some s /\ s ≠ "".
Proof.
  split.
  - destruct id as [[|c s]|]; simpl; try done. intros _. by eexists.
  - intros (s & -> & Hs). by destruct s.
Qed.

(** A constructor returns an order exactly when the amount is not negative
    (not zero or negative, in the proxy example) and the identifier is a
    non-empty string; the order then carries the identifier, the amount and
    the status that were passed, ["pending"] when none was. NaN and
    infinity are not negative: the constructors accept them. *)
Theorem order_construction_accepts (id : option string) (amount : number)
    (status : option string) :
  (forall o,
     OrderModel.new id amount status = Return o
     <-> ¬ negative amount
         /\ exists s, id = Some s /\ s ≠ ""
            /\ o = OrderModel.mkOrder s amount (default_arg "pending" status))
  /\ (forall o,
     ObserverPattern.new id amount status = Return o
     <-> ¬ negative amount
         /\ exists s, id = Some s /\ s ≠ ""
            /\ o = ObserverPattern.mkOrder s amount
                     (default_arg "pending" status))
  /\ (forall o,
     ProxyPattern.new id amount status = Return o
     <-> ¬ nonpositive amount
         /\ exists s, id = Some s /\ s ≠ ""
            /\ o = ProxyPattern.mkOrder s amount
                     (default_arg "pending" status)).
Proof.
  unfold OrderModel.new, ObserverPattern.new, ProxyPattern.new.
  pose proof (js_lt_zero_iff amount) as Hlt.
  pose proof (js_le_zero_iff amount) as Hle.
  pose proof (truthy_string_iff id) as Hid.
  split; [|split]; intros o.
  - destruct (js_lt amount zero).
    { split; [done|]. intros [Hneg _]. exfalso. by apply Hneg, Hlt. }
    destruct (truthy_string id); simpl.
    + destruct (proj1 Hid eq_refl) as (s & -> & Hs). simpl. split.
      * intros [= <-]. split; [by intros ?%Hlt|]. by exists s.
      * by intros (_ & s' & [= <-] & _ & ->).
    + split; [done|]. intros (_ & s & Hs1 & Hs2 & _).
      assert (false = true) by (apply Hid; by exists s). done.
  - destruct (js_lt amount zero).
    { split; [done|]. intros [Hneg _]. exfalso. by apply Hneg, Hlt. }
    destruct (truthy_string id); simpl.
    + destruct (proj1 Hid eq_refl) as (s & -> & Hs). simpl. split.
      * intros [= <-]. split; [by intros ?%Hlt|]. by exists s.
      * by intros (_ & s' & [= <-] & _ & ->).
    + split; [done|]. intros (_ & s & Hs1 & Hs2 & _).
      assert (false = true) by (apply Hid; by exists s). done.
  - destruct (js_le amount zero).
    { split; [done|]. intros [Hneg _]. exfalso. by apply Hneg, Hle. }
    destruct (truthy_string id); simpl.
    + destruct (proj1 Hid eq_refl) as (s & -> & Hs). simpl. split.
      * intros [= <-]. split; [by intros ?%Hle|]. by exists s.
      * by intros (_ & s' & [= <-] & _ & ->).
    + split; [done|]. intros (_ & s & Hs1 & Hs2 & _).
      assert (false = true) by (apply Hid; by exists s). done.
Qed.

(** ** Single responsibility: the items of an order *)

Section ItemsFacts.
Import SingleResponsibility.
Context {arith : Arith}.
Implicit Types (o : Order) (item : string) (price : number).

(** [removeItem] on an item the order does not hold changes nothing: the
    price is not subtracted. On an item it holds, it takes out the first
    occurrence only and subtracts the price the caller passes. *)
Theorem removeItem_first_occurrence o item price :
  (item ∉ items o -> removeItem item price o = o)
  /\ (forall pre post,
       items o = pre ++ item :: post -> item ∉ pre ->
       removeItem item price o
       = mkOrder (uuid o) (pre ++ post) (sub (total o) price) (status o)).
Proof.
  unfold removeItem, ObserverPattern.indexOf, ObserverPattern.splice1.
  destruct (indexOf_from_spec 0 (items o) item)
    as [[Hnot ->]|(pre' & post' & Hl & Hpre' & ->)].
  - split; [by intros _; rewrite decide_False by lia|].
    intros pre post Hitems _. exfalso. apply Hnot. rewrite Hitems.
    apply elem_of_app. right. by left.
  - split.
    { intros Hnot. exfalso. apply Hnot. rewrite Hl.
      apply elem_of_app. right. by left. }
    intros pre post Hitems Hpre. rewrite decide_True by lia.
    replace (Z.to_nat (0 + Z.of_nat (length pre'))) with (length pre') by lia.
    rewrite Hl, delete_middle. f_equal.
    rewrite Hl in Hitems. clear -Hitems Hpre Hpre'.
    revert pre Hitems Hpre.
    induction pre' as [|a pre' IH]; intros [|b pre] Hitems Hpre; simpl in *.
    + by injection Hitems as ->.
    + injection Hitems as -> _. exfalso. apply Hpre. by left.
    + injection Hitems as <- _. exfalso. apply Hpre'. by left.
    + injection Hitems as <- Hitems.
      apply not_elem_of_cons in Hpre as [_ Hpre].
      apply not_elem_of_cons in Hpre' as [_ Hpre'].
      f_equal. by apply IH.
Qed.

Lemma apply_op_frame (op : OrderOp) o :
  uuid (apply_op op o) = uuid o
  /\ (status o = closed -> status (apply_op op o) = closed).
Proof.
  destruct op as [item price|item price|]; simpl; try done.
  unfold removeItem. by destruct (decide _).
Qed.

(** An order never changes its identifier, and nothing reopens it once it
    is closed; closing it does not freeze it either: items are still added
    to a closed order. *)
Theorem closed_order_stays_closed (ops : list OrderOp) o item price :
  uuid (apply_ops ops o) = uuid o
  /\ status (apply_ops ops (closeOrder o)) = closed
  /\ getItems (addItem item price (closeOrder o)) = getItems o ++ [item].
Proof.
  assert (forall o', uuid (apply_ops ops o') = uuid o'
                     /\ (status o' = closed ->
                         status (apply_ops ops o') = closed)) as Hinv.
  { induction ops as [|op ops IH]; intros o'; [done|]. simpl.
    destruct (apply_op_frame op o') as [Huuid Hstatus].
    destruct (IH (apply_op op o')) as [Huuid' Hstatus'].
    split; [congruence|]. intros Hclosed. by apply Hstatus', Hstatus. }
  split; [apply Hinv|]. split; [by apply Hinv|done].
Qed.

End ItemsFacts.

Section ProcessorFacts.
Import SingleResponsibility.
Context {toStr : NumberToString}.
Implicit Types (svc : OrderProcessorService) (env : Env).

(** [processOrder] with collaborators that return: the total is printed
    first; then the answer of the payment processor decides. On [true] the
    order is closed and the success line printed; on [false] the service
    throws "Payment processing failed", and the order is not closed and no
    success line is printed. *)
Theorem processOrder_payment_decides svc env (stock : bool) (t : number)
    (paymentSuccess : bool) env1 env2 env3 :
  inventoryChecker svc env = (Return stock, env1) ->
  orderCalculator svc env1 = (Return t, env2) ->
  paymentProcessor svc
    (console_log ("Total amount for order "
                  +:+ arrayToString (getItems (order env2)) +:+ ": "
                  +:+ numberToString t) env2)
  = (Return paymentSuccess, env3) ->
  processOrder svc env
  = if paymentSuccess
    then (Return tt,
          mkEnv (closeOrder (order env3))
                (console env3
                 ++ ["Order " +:+ arrayToString (getItems (order env3))
                     +:+ " processed successfully."]))
    else (Throw (mkError "Payment processing failed"), env3).
Proof.
  intros Hinv Hcalc Hpay. unfold processOrder.
  rewrite (Eff_bind_return _ _ _ _ _ Hinv).
  rewrite (Eff_bind_return _ _ _ _ _ Hcalc).
  unfold mbind at 1 2, Eff_bind at 1 2, gets at 1, log, modify at 1. simpl.
  rewrite (Eff_bind_return _ _ _ _ _ Hpay).
  by destruct paymentSuccess.
Qed.

(** With the three collaborators of the file, every order is processed:
    closed, with the total line and the success line on the console. *)
Theorem stock_collaborators_close_the_order (o : Order)
    (lines : list string) :
  processOrder
    (mkOrderProcessorService InventoryChecker PaymentProcessor
       OrderCalculator)
    (mkEnv o lines)
  = (Return tt,
     mkEnv (closeOrder o)
       (lines
        ++ ["Total amount for order " +:+ arrayToString (items o) +:+ ": "
            +:+ numberToString (total o);
            "Order " +:+ arrayToString (items o)
            +:+ " processed successfully."])).
Proof.
  unfold processOrder, mbind, Eff_bind. simpl.
  unfold log, modify, console_log, Env_console, getItems, getTotal. simpl.
  by rewrite <- app_assoc.
Qed.

End ProcessorFacts.

Lemma removeItem_first_occurrence_witness :
  SingleResponsibility.removeItem
    (arith := SingleResponsibility.Build_Arith (fun a _ => a) (fun a _ => a))
    "pen" (Fin 3)
    (SingleResponsibility.mkOrder "u1" ["book"] (Fin 50)
       SingleResponsibility.open)
  = SingleResponsibility.mkOrder "u1" ["book"] (Fin 50)
      SingleResponsibility.open
  /\ SingleResponsibility.items
       (SingleResponsibility.removeItem
          (arith := SingleResponsibility.Build_Arith (fun a _ => a)
                      (fun a _ => a))
          "pen" (Fin 3)
          (SingleResponsibility.mkOrder "u1" ["book"; "pen"; "ink"; "pen"]
             (Fin 50) SingleResponsibility.open))
     = ["book"; "ink"; "pen"].
Proof.
  split.
  - apply removeItem_first_occurrence.
    intros Hin. apply list_elem_of_In in Hin. destruct Hin as [Heq|[]].
    discriminate.
  - etrans.
    + apply (f_equal SingleResponsibility.items).
      apply (proj2 (removeItem_first_occurrence
                      (arith := SingleResponsibility.Build_Arith
                                  (fun a _ => a) (fun a _ => a))
                      (SingleResponsibility.mkOrder "u1"
                         ["book"; "pen"; "ink"; "pen"] (Fin 50)
                         SingleResponsibility.open)
                      "pen" (Fin 3)) ["book"] ["ink"; "pen"]).
      * reflexivity.
      * intros Hin. apply list_elem_of_In in Hin. destruct Hin as [Heq|[]].
        discriminate.
    + reflexivity.
Defined.

Lemma processOrder_payment_decides_witness :
  SingleResponsibility.processOrder (toStr := decimal)
    (SingleResponsibility.mkOrderProcessorService
       SingleResponsibility.InventoryChecker (mret false)
       SingleResponsibility.OrderCalculator)
    (SingleResponsibility.mkEnv
       (SingleResponsibility.mkOrder "u1" ["book"; "pen"] (Fin 53)
          SingleResponsibility.open) [])
  = (Throw (mkError "Payment processing failed"),
     SingleResponsibility.mkEnv
       (SingleResponsibility.mkOrder "u1" ["book"; "pen"] (Fin 53)
          SingleResponsibility.open)
       ["Total amount for order book,pen: 53"]).
Proof.
  etrans.
  - eapply (processOrder_payment_decides (toStr := decimal)
              (SingleResponsibility.mkOrderProcessorService
                 SingleResponsibility.InventoryChecker (mret false)
                 SingleResponsibility.OrderCalculator)
              _ true (Fin 53) false); reflexivity.
  - vm_compute. reflexivity.
Defined.

(** ** Facade: the facade of the test *)

Section FacadeTestFacts.
Import OrderModel FacadePattern.
Context {toStr : NumberToString} {W : Type} {con : Console W}.

(** The test passes the payment, inventory and shipping services in this
    order to a constructor that expects shipping, payment, inventory: the
    facade it builds takes the inventory service for its payment service.
    Every order is still completed, but the transaction identifier is the
    tag of the inventory service, and the lines come inventory, shipping,
    payment. *)
Theorem test_facade_pays_with_inventory (o : Order) (w : W)
    (tr : list Call) :
  processOrder
    (newOrderFacade PaymentService InventoryService ShippingService)
    (mkEnv o w tr)
  = (Return (PaymentResult.mk "inventory-updated" "completed"),
     mkEnv (mkOrder (id o) (amount o) "completed")
       (console_log
          ("Processing payment for order ID: " +:+ id o
           +:+ " with value: " +:+ numberToString (amount o))
          (console_log
             ("Processing shipping for order ID: " +:+ id o
              +:+ " with value: " +:+ numberToString (amount o))
             (console_log
                ("Processing inventory for order ID: " +:+ id o
                 +:+ " with value: " +:+ numberToString (amount o)) w)))
       (tr ++ [mkCall payment (id o) (amount o);
               mkCall inventory (id o) (amount o);
               mkCall shipping (id o) (amount o)])).
Proof.
  unfold processOrder, mbind, Eff_bind, process. simpl.
  by rewrite <- !app_assoc.
Qed.

End FacadeTestFacts.

(** ** Observer: the loop over the live list *)

Section DeliverFacts.
Import ObserverPattern ObserverPattern.Reentrant.
Context {Observer : Type} {W : Type}.
Variable f : Observer -> string -> Eff W unit.
Implicit Types (l pre post called : list Observer) (w : W) (s : string).

(** [deliver] calls a prefix of the list: all of it when it returns. *)
Lemma deliver_prefix s l w : snd (deliver f s l w) `prefix_of` l.
Proof.
  revert w. induction l as [|o rest IH]; intros w; simpl; [done|].
  destruct (f o s w) as [[[]|e] w'].
  - specialize (IH w'). destruct (deliver f s rest w') as [[r w''] called].
    simpl in *. by apply prefix_cons.
  - simpl. apply prefix_cons, prefix_nil.
Qed.

Lemma deliver_returns s l w w' called :
  deliver f s l w = (Return tt, w', called) -> called = l.
Proof.
  revert w w' called.
  induction l as [|o rest IH]; intros w w' called; simpl.
  - by intros [= _ <-].
  - destruct (f o s w) as [[[]|e] w1]; [|done].
    destruct (deliver f s rest w1) as [[r w2] called'] eqn:Hrest.
    intros [= -> -> <-]. by rewrite (IH _ _ _ Hrest).
Qed.

(** The observers after the first that throws are not called. *)
Lemma deliver_throws s pre o post w wk e w1 :
  deliver f s pre w = (Return tt, wk, pre) ->
  f o s wk = (Throw e, w1) ->
  deliver f s (pre ++ o :: post) w = (Throw e, w1, pre ++ [o]).
Proof.
  revert w. induction pre as [|p pre IH]; intros w; simpl.
  - intros [= <-] Hthrow. by rewrite Hthrow.
  - destruct (f p s w) as [[[]|e'] w2]; [|done].
    destruct (deliver f s pre w2) as [[r w3] called] eqn:Hpre.
    intros [= -> -> ->] Hthrow. by rewrite (IH _ Hpre Hthrow).
Qed.

End DeliverFacts.

Section ReentrantFacts.
Import ObserverPattern ObserverPattern.Reentrant.
Context {Observer : Type} `{EqDecision Observer} {W : Type}.
Variable f : Observer -> string -> Eff W unit.
Implicit Types (env : Env (Observer := Observer) (W := W))
               (l : list Observer) (x o : Observer) (s : string).

(** With observers that do not reach the subject, the loop over the live
    list, given turns enough, is [deliver] on what is left of the list. *)
Lemma notify_from_detached (fuel i : nat) env :
  length (observers (this env)) - i < fuel ->
  notify_from (detached f) fuel i env
  = Some (let '(r, w', called) :=
            deliver f (status (order (this env)))
                    (drop i (observers (this env))) (world env) in
          (r, mkEnv (this env) w'
                (updates env
                 ++ map (fun o => (o, status (order (this env)))) called))).
Proof.
  revert i env. induction fuel as [|fuel IH]; intros i env Hfuel.
  - exfalso. lia.
  - simpl. destruct (observers (this env) !! i) as [o|] eqn:Hi.
    + rewrite (drop_S _ _ _ Hi). simpl.
      unfold call_update, detached. simpl.
      destruct (f o (status (order (this env))) (world env))
        as [[[]|e] w1]; simpl.
      * apply lookup_lt_Some in Hi.
        rewrite IH by (simpl; lia). simpl.
        destruct (deliver f (status (order (this env)))
                    (drop (S i) (observers (this env))) w1)
          as [[r w2] called].
        simpl. by rewrite <- app_assoc.
      * done.
    + apply lookup_ge_None in Hi. rewrite drop_ge by done. simpl.
      rewrite app_nil_r. by destruct env.
Qed.

Lemma setStatus_detached (fuel : nat) s env :
  length (observers (this env)) < fuel ->
  setStatus (detached f) fuel s env
  = Some (let '(r, w', called) :=
            deliver f s (observers (this env)) (world env) in
          (r, mkEnv (mkOrderSubject (observers (this env))
                       (mkOrder (id (order (this env)))
                                (amount (order (this env))) s))
                    w' (updates env ++ map (fun o => (o, s)) called))).
Proof.
  intros Hfuel. unfold setStatus, notify.
  by rewrite notify_from_detached by (simpl; lia).
Qed.

(** The loop over a copy of the list, which the subject of the section
    above runs, is the same [deliver]: for observers that do not reach the
    subject the two loops cannot be told apart. *)
Lemma notify_each_deliver l env :
  notify_each f l env
  = (let '(r, w', called) :=
       deliver f (status (order (this env))) l (world env) in
     (r, mkEnv (this env) w'
           (updates env
            ++ map (fun o => (o, status (order (this env)))) called))).
Proof.
  revert env. induction l as [|o rest IH]; intros env; simpl.
  - rewrite app_nil_r. by destruct env.
  - unfold mbind, Eff_bind, ObserverPattern.call_update.
    destruct (f o (status (order (this env))) (world env))
      as [[[]|e] w1]; simpl; [|done].
    rewrite IH. simpl.
    destruct (deliver f (status (order (this env))) rest w1)
      as [[r w2] called].
    simpl. by rewrite <- app_assoc.
Qed.

Lemma live_loop_is_snapshot_loop (fuel : nat) s env :
  length (observers (this env)) < fuel ->
  setStatus (detached f) fuel s env
  = Some (ObserverPattern.setStatus f s env).
Proof.
  intros Hfuel. rewrite (setStatus_detached _ _ _ Hfuel).
  by rewrite setStatus_unfold, notify_each_deliver.
Qed.

(** C7, as the code has it. For observers that do not reach the subject,
    [setStatus], given turns enough for the list, writes the new status on
    the order and then calls the registered observers in registration
    order, each with the new status and each on the world the one before it
    left: all of them when none throws. When an observer throws, [setStatus]
    throws the same error, the observers after it are not called, and the
    order keeps the new status. *)
Theorem setStatus_notifies_in_order (fuel : nat) s env :
  length (observers (this env)) < fuel ->
  setStatus (detached f) fuel s env
  = Some (let '(r, w', called) :=
            deliver f s (observers (this env)) (world env) in
          (r, mkEnv (mkOrderSubject (observers (this env))
                       (mkOrder (id (order (this env)))
                                (amount (order (this env))) s))
                    w' (updates env ++ map (fun o => (o, s)) called)))
  /\ (forall w',
       deliver f s (observers (this env)) (world env)
         = (Return tt, w', observers (this env)) ->
       setStatus (detached f) fuel s env
       = Some (Return tt,
               mkEnv (mkOrderSubject (observers (this env))
                        (mkOrder (id (order (this env)))
                                 (amount (order (this env))) s))
                     w'
                     (updates env
                      ++ map (fun o => (o, s)) (observers (this env)))))
  /\ (forall pre o post wk e w1,
       observers (this env) = pre ++ o :: post ->
       deliver f s pre (world env) = (Return tt, wk, pre) ->
       f o s wk = (Throw e, w1) ->
       setStatus (detached f) fuel s env
       = Some (Throw e,
               mkEnv (mkOrderSubject (observers (this env))
                        (mkOrder (id (order (this env)))
                                 (amount (order (this env))) s))
                     w1
                     (updates env
                      ++ map (fun o => (o, s)) (pre ++ [o])))).
Proof.
  intros Hfuel. rewrite (setStatus_detached _ _ _ Hfuel).
  split; [done|]. split.
  - intros w' Hall. by rewrite Hall.
  - intros pre o post wk e w1 Hl Hpre Hthrow.
    pose proof (deliver_throws f _ _ _ post _ _ _ _ Hpre Hthrow) as Hd.
    rewrite <- Hl in Hd. by rewrite Hd.
Qed.

Lemma setStatuses_detached (fuel : nat) (statuses : list string) env :
  length (observers (this env)) < fuel ->
  exists env2,
    setStatuses (detached f) fuel statuses env = Some env2
    /\ observers (this env2) = observers (this env)
    /\ id (order (this env2)) = id (order (this env))
    /\ amount (order (this env2)) = amount (order (this env))
    /\ forall o s,
         (o, s) ∈ updates env2 ->
         (o, s) ∈ updates env \/ o ∈ observers (this env).
Proof.
  revert env. induction statuses as [|s rest IH]; intros env Hfuel; simpl.
  - exists env. repeat split; try done. by left.
  - rewrite (setStatus_detached _ _ _ Hfuel).
    pose proof (deliver_prefix f s (observers (this env)) (world env))
      as [post Hpre].
    destruct (deliver f s (observers (this env)) (world env))
      as [[r w'] called].
    simpl in Hpre.
    destruct (IH (mkEnv (mkOrderSubject (observers (this env))
                           (mkOrder (id (order (this env)))
                                    (amount (order (this env))) s))
                        w' (updates env ++ map (fun o => (o, s)) called)))
      as (env2 & -> & Hobs & Hid & Hamount & Hupd); [done|].
    exists env2. simpl in *. repeat split; try done.
    intros o s' Hin. destruct (Hupd o s' Hin) as [Hold|Hreg]; [|by right].
    apply elem_of_app in Hold as [Hold|Hnew]; [by left|right].
    apply list_elem_of_fmap in Hnew as (o' & [= -> ->] & Hnew).
    rewrite Hpre. apply elem_of_app. by left.
Qed.

(** C6, as the code has it. [removeObserver x] takes out the first
    registration of [x] and nothing else; it does nothing when [x] is not
    registered. When [x] is registered at most once and the observers do
    not reach the subject, then after [removeObserver x] and any later
    [setStatus] calls, given turns enough: the other observers are still
    registered, in their order; no call of [x] was added to the trace; and
    one more [setStatus] calls exactly these other observers, in
    registration order with the new status, each on the world the one
    before it left, up to the first that throws. *)
Theorem removeObserver_silences env x :
  ((x ∉ observers (this env)) -> snd (removeObserver x env) = env)
  /\ (forall pre post,
       observers (this env) = pre ++ x :: post -> (x ∉ pre) ->
       snd (removeObserver x env)
       = mkEnv (mkOrderSubject (pre ++ post) (order (this env)))
               (world env) (updates env))
  /\ ((registrations x (observers (this env)) ≤ 1)%nat ->
      forall (statuses : list string) (fuel : nat),
        length (observers (this env)) < fuel ->
        exists env2,
          setStatuses (detached f) fuel statuses (snd (removeObserver x env))
            = Some env2
          /\ observers (this env2)
             = filter (fun o => o ≠ x) (observers (this env))
          /\ (forall s, (x, s) ∈ updates env2 -> (x, s) ∈ updates env)
          /\ forall s,
               setStatus (detached f) fuel s env2
               = Some (let '(r, w', called) :=
                         deliver f s
                           (filter (fun o => o ≠ x) (observers (this env)))
                           (world env2) in
                       (r, mkEnv
                             (mkOrderSubject
                                (filter (fun o => o ≠ x)
                                        (observers (this env)))
                                (mkOrder (id (order (this env)))
                                         (amount (order (this env))) s))
                             w'
                             (updates env2
                              ++ map (fun o => (o, s)) called)))).
Proof.
  split; [|split].
  - intros Hnot.
    destruct (removeObserver_spec env x)
      as [[_ Hsame]|(pre & post & Hl & _ & _)]; [done|].
    exfalso. apply Hnot. rewrite Hl. apply elem_of_app. right. by left.
  - intros pre post Hl Hpre.
    destruct (removeObserver_spec env x)
      as [[Hnot _]|(pre' & post' & Hl' & Hpre' & ->)].
    { exfalso. apply Hnot. rewrite Hl. apply elem_of_app. right. by left. }
    assert (pre' = pre /\ post' = post) as [-> ->]; [|done].
    rewrite Hl in Hl'. clear -Hl' Hpre Hpre'. revert pre' Hl' Hpre'.
    induction pre as [|a pre IH]; intros [|b pre'] Hl' Hpre'; simpl in *.
    + by injection Hl' as <-.
    + injection Hl' as <- _. exfalso. apply Hpre'. by left.
    + injection Hl' as -> _. exfalso. apply Hpre. by left.
    + injection Hl' as <- Hl'.
      apply not_elem_of_cons in Hpre as [_ Hpre].
      apply not_elem_of_cons in Hpre' as [_ Hpre'].
      by destruct (IH Hpre pre' Hl' Hpre') as [-> ->].
  - intros Hcount statuses fuel Hfuel.
    rewrite (removeObserver_once env x Hcount).
    assert (length (filter (fun o => o ≠ x) (observers (this env))) < fuel)
      as Hfuel'.
    { pose proof (length_filter (fun o => o ≠ x) (observers (this env))).
      lia. }
    destruct (setStatuses_detached fuel statuses
                (mkEnv (mkOrderSubject
                          (filter (fun o => o ≠ x) (observers (this env)))
                          (order (this env)))
                       (world env) (updates env)) Hfuel')
      as (env2 & Hrun & Hobs & Hid & Hamount & Hupd).
    simpl in *. exists env2. split; [done|]. split; [done|]. split.
    + intros s Hin. destruct (Hupd x s Hin) as [Hold|Hreg]; [done|].
      apply list_elem_of_filter in Hreg as [Hne _]. done.
    + intros s. rewrite setStatus_detached by (rewrite Hobs; done).
      by rewrite Hobs, Hid, Hamount.
Qed.

End ReentrantFacts.

(** C7 as stated fails for an observer that holds the subject: the e-mail
    notifier unsubscribes itself when it is called, the loop then finds the
    list at its end, and [setStatus] returns without having called the SMS
    notifier, which is registered, and without any throw. *)
Lemma self_removing_observer_hides_next :
  ObserverPattern.Reentrant.setStatus ObserverPattern.Reentrant.oneShot 5
    "shipped"
    (ObserverPattern.addObservers
       [ObserverPattern.emailNotifier; ObserverPattern.smsNotifier]
       ObserverPattern.main_env)
  = Some (Return tt,
          ObserverPattern.mkEnv
            (ObserverPattern.mkOrderSubject [ObserverPattern.smsNotifier]
               (ObserverPattern.mkOrder "12345" (Fin 100) "shipped"))
            ["Email notification sent: Order status changed to shipped"]
            [(ObserverPattern.emailNotifier, "shipped")]).
Proof. vm_compute. reflexivity. Qed.

Lemma setStatus_notifies_in_order_witness :
  ObserverPattern.Reentrant.setStatus
    (ObserverPattern.Reentrant.detached ObserverPattern.Reentrant.smsDown)
    4 "shipped"
    (ObserverPattern.addObservers
       [(ObserverPattern.EmailNotifier, 1); (ObserverPattern.SmsNotifier, 2);
        (ObserverPattern.EmailNotifier, 3)]
       ObserverPattern.main_env)
  = Some (Throw (mkError "SMS gateway down"),
          ObserverPattern.mkEnv
            (ObserverPattern.mkOrderSubject
               [(ObserverPattern.EmailNotifier, 1);
                (ObserverPattern.SmsNotifier, 2);
                (ObserverPattern.EmailNotifier, 3)]
               (ObserverPattern.mkOrder "12345" (Fin 100) "shipped"))
            ["Email notification sent: Order status changed to shipped"]
            [((ObserverPattern.EmailNotifier, 1), "shipped");
             ((ObserverPattern.SmsNotifier, 2), "shipped")]).
Proof.
  etrans.
  - apply (proj2 (proj2 (setStatus_notifies_in_order
                           ObserverPattern.Reentrant.smsDown 4 "shipped"
                           (ObserverPattern.addObservers
                              [(ObserverPattern.EmailNotifier, 1);
                               (ObserverPattern.SmsNotifier, 2);
                               (ObserverPattern.EmailNotifier, 3)]
                              ObserverPattern.main_env)
                           ltac:(vm_compute; lia)))
             [(ObserverPattern.EmailNotifier, 1)]
             (ObserverPattern.SmsNotifier, 2)
             [(ObserverPattern.EmailNotifier, 3)]
             ["Email notification sent: Order status changed to shipped"]
             (mkError "SMS gateway down")
             ["Email notification sent: Order status changed to shipped"]);
      reflexivity.
  - vm_compute. reflexivity.
Defined.

Lemma removeObserver_silences_witness :
  snd (ObserverPattern.removeObserver ObserverPattern.smsNotifier
         (ObserverPattern.addObservers
            [ObserverPattern.smsNotifier; ObserverPattern.emailNotifier;
             ObserverPattern.smsNotifier]
            ObserverPattern.main_env))
  = ObserverPattern.mkEnv
      (ObserverPattern.mkOrderSubject
         [ObserverPattern.emailNotifier; ObserverPattern.smsNotifier]
         (ObserverPattern.mkOrder "12345" (Fin 100) "pending"))
      [] []
  /\ exists env2,
      ObserverPattern.Reentrant.setStatuses
        (ObserverPattern.Reentrant.detached ObserverPattern.notifier_update)
        3 ["shipped"]
        (snd (ObserverPattern.removeObserver ObserverPattern.smsNotifier
                (ObserverPattern.addObservers
                   [ObserverPattern.emailNotifier;
                    ObserverPattern.smsNotifier]
                   ObserverPattern.main_env)))
      = Some env2
      /\ ObserverPattern.observers (ObserverPattern.this env2)
         = [ObserverPattern.emailNotifier]
      /\ ObserverPattern.Reentrant.setStatus
           (ObserverPattern.Reentrant.detached
              ObserverPattern.notifier_update)
           3 "delivered" env2
         = Some (Return tt,
                 ObserverPattern.mkEnv
                   (ObserverPattern.mkOrderSubject
                      [ObserverPattern.emailNotifier]
                      (ObserverPattern.mkOrder "12345" (Fin 100)
                         "delivered"))
                   ["Email notification sent: Order status changed to shipped";
                    "Email notification sent: Order status changed to delivered"]
                   [(ObserverPattern.emailNotifier, "shipped");
                    (ObserverPattern.emailNotifier, "delivered")]).
Proof.
  split.
  - apply (proj1 (proj2 (removeObserver_silences
                           ObserverPattern.notifier_update
                           (ObserverPattern.addObservers
                              [ObserverPattern.smsNotifier;
                               ObserverPattern.emailNotifier;
                               ObserverPattern.smsNotifier]
                              ObserverPattern.main_env)
                           ObserverPattern.smsNotifier))
             [] [ObserverPattern.emailNotifier; ObserverPattern.smsNotifier]).
    + reflexivity.
    + apply not_elem_of_nil.
  - pose proof (proj2 (proj2 (removeObserver_silences
                                ObserverPattern.notifier_update
                                (ObserverPattern.addObservers
                                   [ObserverPattern.emailNotifier;
                                    ObserverPattern.smsNotifier]
                                   ObserverPattern.main_env)
                                ObserverPattern.smsNotifier))) as Hthm.
    destruct (Hthm ltac:(vm_compute; lia) ["shipped"] 3)
      as (env2 & Hrun & Hobs & _ & Hnext); [vm_compute; lia|].
    exists env2. split; [exact Hrun|]. split; [exact Hobs|].
    rewrite (Hnext "delivered").
    vm_compute in Hrun. injection Hrun as <-.
    vm_compute. reflexivity.
Defined.
